(** * chroma_server.py: collection cache, ingestion, query and deletion handlers

    A shallow embedding of [src/python/chroma_server.py].  The handlers are
    written in a small state-and-exception monad over the process state of the
    server: the chromadb client, the module-level [collections] dictionary and
    the history of calls made to the client.  The chromadb client and the
    collection objects it hands out are external to the file, so they are an
    interface ([ChromaClient]); every theorem about a handler holds for every
    implementation of that interface.  Logging calls have no effect on any
    value a handler computes and are left out. *)

From Stdlib Require Import ZArith Lia.
From stdpp Require Import base option list gmap strings pretty.

Open Scope string_scope.

(** ** Python values *)

(** Exceptions the handlers can see.  [HTTPException] is fastapi's;
    [LibraryError msg] is any exception raised inside chromadb, [msg] being
    its [str()]; the last two are raised by Python's own indexing. *)
Inductive exn :=
| HTTPException (status_code : Z) (detail : string)
| LibraryError (msg : string)
| IndexError
| KeyError (key : string).

(** [str(e)].  For [HTTPException] this is starlette's [__str__],
    [f"{self.status_code}: {self.detail}"]. *)
Definition str (e : exn) : string :=
  match e with
  | HTTPException status_code detail => pretty status_code +:+ ": " +:+ detail
  | LibraryError msg => msg
  | IndexError => "list index out of range"
  | KeyError key => "'" +:+ key +:+ "'"
  end.

(** The outcome of running a piece of Python: a value or a raised exception. *)
Inductive result (A : Type) :=
| Return (a : A)
| Raise (e : exn).
Arguments Return {A} a.
Arguments Raise {A} e.

(** The two embedding functions set up by [startup_db_client]. *)
Inductive EmbeddingFunction :=
| DefaultEmbeddingFunction
| OpenAIEmbeddingFunction.

(** [default_ef], as assigned at startup. *)
Definition default_ef : EmbeddingFunction := DefaultEmbeddingFunction.

(** [embedding_function or default_ef] *)
Definition or_default_ef (embedding_function : option EmbeddingFunction) : EmbeddingFunction :=
  match embedding_function with
  | Some ef => ef
  | None => default_ef
  end.

(** Truth value of an [Optional[List[...]]]: [None] and [[]] are false. *)
Definition truthy_list {A : Type} (l : option (list A)) : bool :=
  match l with
  | Some (_ :: _) => true
  | _ => false
  end.

(** Truth value of an optional dict: [None] and [{}] are false. *)
Definition truthy_dict {V : Type} (d : option (gmap string V)) : bool :=
  match d with
  | Some m => negb (Nat.eqb (size m) 0)
  | None => false
  end.

(** [l[i]] on a list, raising [IndexError] out of range. *)
Definition index {A : Type} (l : list A) (i : nat) : result A :=
  match l !! i with
  | Some x => Return x
  | None => Raise IndexError
  end.

Section Server.

(** [float] and the values of [Dict[str, Any]] are only ever passed through. *)
Context {float Any : Type}.

Local Abbreviation Dict := (gmap string Any).

(** ** API data models (the pydantic classes) *)

(** [EmbeddingItem] *)
Record EmbeddingItem := {
  item_id : string;
  item_text : string;
  item_metadata : Dict;
  item_embedding : option (list float)
}.

(** [EmbeddingBatchItem]; [metadatas] defaults to [None]. *)
Record EmbeddingBatchItem := {
  batch_ids : list string;
  batch_texts : list string;
  batch_metadatas : option (list Dict);
  batch_embeddings : option (list (list float))
}.

(** [QueryItem]; the field [where] is [query_where]. *)
Record QueryItem := {
  query_text : string;
  n_results : Z;
  query_where : option Dict;
  query_embedding : option (list float)
}.

(** A [QueryItem] built from a body that gives only [query_text]:
    [n_results = 5], [where = None], [embedding = None]. *)
Definition QueryItem_defaults (text : string) : QueryItem :=
  {| query_text := text; n_results := 5; query_where := None; query_embedding := None |}.

(** [DeleteItem] *)
Record DeleteItem := {
  delete_ids : option (list string);
  delete_where : option Dict
}.

(** ** The chromadb interface *)

(** What [collection.query] returns: one row per submitted query. *)
Record QueryResult := {
  res_ids : list (list string);
  res_documents : option (list (list (option string)));
  res_metadatas : option (list (list (option Dict)));
  res_distances : option (list (list float))
}.

(** The client ([chroma_client.*]) and the collection objects it returns
    ([collection.*]).  Each method takes the store as it is and gives back a
    value or an exception together with the store as the call left it. *)
Class ChromaClient (Store Collection : Type) := {
  client_get_collection :
    string -> EmbeddingFunction -> Store -> result Collection * Store;
  client_create_collection :
    string -> EmbeddingFunction -> Store -> result Collection * Store;
  client_delete_collection : string -> Store -> result unit * Store;
  client_list_collections : Store -> result (list Collection) * Store;
  collection_name_of : Collection -> string;
  collection_add :
    Collection -> list string -> option (list (list float)) -> list string ->
    list Dict -> Store -> result unit * Store;
  collection_query :
    Collection -> option (list (list float)) -> option (list string) -> Z ->
    option Dict -> Store -> result QueryResult * Store;
  collection_delete :
    Collection -> option (list string) -> option Dict -> Store ->
    result unit * Store
}.

Context {Store Collection : Type} {client : ChromaClient Store Collection}.

(** One call made to chromadb, with its keyword arguments. *)
Inductive invocation :=
| GetCollection (name : string) (embedding_function : EmbeddingFunction)
| CreateCollection (name : string) (embedding_function : EmbeddingFunction)
| DeleteCollection (name : string)
| ListCollections
| Add (c : Collection) (ids : list string) (embeddings : option (list (list float)))
      (documents : list string) (metadatas : list Dict)
| Query (c : Collection) (query_embeddings : option (list (list float)))
        (query_texts : option (list string)) (n_results : Z) (where_ : option Dict)
| Delete (c : Collection) (ids : option (list string)) (where_ : option Dict).

(** A call and whether it returned ([true]) or raised ([false]). *)
Record call := { call_what : invocation; call_returned : bool }.

(** ** Process state *)

(** The globals [chroma_client] and [collections], and the calls made so far
    (oldest first). *)
Record world := {
  chroma_client : Store;
  collections : gmap string Collection;
  calls : list call
}.

(** ** The monad of handler code *)

Definition M (A : Type) : Type := world -> result A * world.

Definition ret {A : Type} (a : A) : M A := fun w => (Return a, w).

Definition raise {A : Type} (e : exn) : M A := fun w => (Raise e, w).

Definition bind {A B : Type} (m : M A) (k : A -> M B) : M B :=
  fun w =>
    match m w with
    | (Return a, w') => k a w'
    | (Raise e, w') => (Raise e, w')
    end.

(** [try: body except Exception as e: handler(e)]; every [exn] is an
    [Exception], [HTTPException] included. *)
Definition try_except {A : Type} (body : M A) (handler : exn -> M A) : M A :=
  fun w =>
    match body w with
    | (Return a, w') => (Return a, w')
    | (Raise e, w') => handler e w'
    end.

(** Lifting a pure computation that may raise. *)
Definition lift {A : Type} (r : result A) : M A := fun w => (r, w).

#[local] Instance M_ret : MRet M := @ret.
#[local] Instance M_bind : MBind M := fun A B k m => bind m k.

(** Whether a computation returned. *)
Definition returned {A : Type} (r : result A) : bool :=
  match r with
  | Return _ => true
  | Raise _ => false
  end.

(** Calling a chromadb method: run it on the store and note the call. *)
Definition invoke {A : Type} (what : invocation)
    (method : Store -> result A * Store) : M A :=
  fun w =>
    let (r, store') := method (chroma_client w) in
    (r, {| chroma_client := store';
           collections := collections w;
           calls := calls w ++ [{| call_what := what; call_returned := returned r |}] |}).

(** [collection_name in collections] *)
Definition cache_contains (collection_name : string) : M bool :=
  fun w => (Return (bool_decide (is_Some (collections w !! collection_name))), w).

(** [collections[collection_name] = c] *)
Definition cache_assign (collection_name : string) (c : Collection) : M unit :=
  fun w =>
    (Return tt, {| chroma_client := chroma_client w;
                   collections := <[collection_name := c]> (collections w);
                   calls := calls w |}).

(** [collections[collection_name]] *)
Definition cache_item (collection_name : string) : M Collection :=
  fun w =>
    match collections w !! collection_name with
    | Some c => (Return c, w)
    | None => (Raise (KeyError collection_name), w)
    end.

(** [del collections[collection_name]] *)
Definition cache_del (collection_name : string) : M unit :=
  fun w =>
    match collections w !! collection_name with
    | Some _ =>
        (Return tt, {| chroma_client := chroma_client w;
                       collections := delete collection_name (collections w);
                       calls := calls w |})
    | None => (Raise (KeyError collection_name), w)
    end.

(** ** [get_collection] *)

Definition get_collection (collection_name : string)
    (embedding_function : option EmbeddingFunction) : M Collection :=
  cached ← cache_contains collection_name;
  (if negb cached then
     try_except
       (c ← invoke (GetCollection collection_name (or_default_ef embedding_function))
              (client_get_collection collection_name (or_default_ef embedding_function));
        cache_assign collection_name c)
       (fun _ =>
        c ← invoke (CreateCollection collection_name (or_default_ef embedding_function))
              (client_create_collection collection_name (or_default_ef embedding_function));
        cache_assign collection_name c)
   else ret tt);;
  cache_item collection_name.

(** ** Responses *)

(** [{"status": ..., "message": ...}] *)
Record Message := { status : string; message : string }.

(** One entry of [processed_results]. *)
Record QueryResultItem := {
  result_id : string;
  result_text : option string;
  result_metadata : option Dict;
  result_distance : option float
}.

(** [{"status": ..., "results": ..., "count": ...}] *)
Record QueryResponse := {
  response_status : string;
  response_results : list QueryResultItem;
  response_count : nat
}.

(** The [except Exception as e] clause shared by the handlers. *)
Definition internal_error {A : Type} (e : exn) : M A :=
  raise (HTTPException 500 (str e)).

(** ** [list_collections] *)

Definition list_collections : M (list string) :=
  collections_list ← invoke ListCollections client_list_collections;
  ret (collection_name_of <$> collections_list).

(** ** [create_embedding] (POST /embed) *)

Definition create_embedding (item : EmbeddingItem) (collection_name : string) : M Message :=
  try_except
    (collection ← get_collection collection_name None;
     match item_embedding item with
     | None | Some [] =>
         invoke (Add collection [item_id item] None [item_text item] [item_metadata item])
           (collection_add collection [item_id item] None [item_text item]
              [item_metadata item])
     | Some ((_ :: _) as embedding) =>
         invoke (Add collection [item_id item] (Some [embedding]) [item_text item]
                   [item_metadata item])
           (collection_add collection [item_id item] (Some [embedding]) [item_text item]
              [item_metadata item])
     end;;
     ret {| status := "success";
            message := "已将文本向量化并添加到" +:+ collection_name |})
    internal_error.

(** ** [create_embeddings_batch] (POST /embed_batch) *)

(** [item.metadatas if item.metadatas else [{}] * len(item.ids)] *)
Definition metadatas_or_empty (item : EmbeddingBatchItem) : list Dict :=
  match batch_metadatas item with
  | Some ((_ :: _) as metadatas) => metadatas
  | _ => replicate (length (batch_ids item)) ∅
  end.

Definition create_embeddings_batch (item : EmbeddingBatchItem) (collection_name : string)
    : M Message :=
  try_except
    (collection ← get_collection collection_name None;
     (if bool_decide (length (batch_ids item) ≠ length (batch_texts item))
      then raise (HTTPException 400 "ids和texts的长度必须一致")
      else ret tt);;
     let metadatas := metadatas_or_empty item in
     match batch_embeddings item with
     | None | Some [] =>
         invoke (Add collection (batch_ids item) None (batch_texts item) metadatas)
           (collection_add collection (batch_ids item) None (batch_texts item) metadatas)
     | Some ((_ :: _) as embeddings) =>
         (if bool_decide (length embeddings ≠ length (batch_ids item))
          then raise (HTTPException 400 "embeddings和ids的长度必须一致")
          else ret tt);;
         invoke (Add collection (batch_ids item) (Some embeddings) (batch_texts item)
                   metadatas)
           (collection_add collection (batch_ids item) (Some embeddings)
              (batch_texts item) metadatas)
     end;;
     ret {| status := "success";
            message := "已批量添加" +:+ pretty (length (batch_ids item)) +:+ "个向量到"
                       +:+ collection_name |})
    internal_error.

(** ** [query_similar] (POST /query) *)

(** [field[0][i] if field and field[0] else None], for one of the optional
    fields of the store's answer. *)
Definition column {A : Type} (field : option (list (list A))) (i : nat)
    : result (option A) :=
  match field with
  | Some (((_ :: _) as row) :: _) =>
      match index row i with
      | Return x => Return (Some x)
      | Raise e => Raise e
      end
  | _ => Return None
  end.

(** The dictionary built by one turn of the loop. *)
Definition process_item (results : QueryResult) (ids0 : list string) (i : nat)
    : result QueryResultItem :=
  match index ids0 i with
  | Raise e => Raise e
  | Return id_ =>
  match column (res_documents results) i with
  | Raise e => Raise e
  | Return text =>
  match column (res_metadatas results) i with
  | Raise e => Raise e
  | Return metadata =>
  match column (res_distances results) i with
  | Raise e => Raise e
  | Return distance =>
      Return {| result_id := id_;
                result_text := mjoin text;
                result_metadata := default (Some ∅) metadata;
                result_distance := distance |}
  end end end end.

(** [for i in range(...): processed_results.append(body(i))] *)
Fixpoint for_append {A : Type} (body : nat -> result A) (range : list nat)
    (processed_results : list A) : result (list A) :=
  match range with
  | [] => Return processed_results
  | i :: range' =>
      match body i with
      | Return item => for_append body range' (processed_results ++ [item])
      | Raise e => Raise e
      end
  end.

(** The reshaping of the store's answer (lines 256 to 267). *)
Definition process_results (results : QueryResult) : result (list QueryResultItem) :=
  match index (res_ids results) 0 with
  | Raise e => Raise e
  | Return ids0 =>
      for_append (process_item results ids0) (seq 0 (length ids0)) []
  end.

(** [query_params.get("where")]: the key is set only for a truthy [where]. *)
Definition where_param (query : QueryItem) : option Dict :=
  if truthy_dict (query_where query) then query_where query else None.

Definition query_similar (query : QueryItem) (collection_name : string) : M QueryResponse :=
  try_except
    (collection ← get_collection collection_name None;
     results ←
       match query_embedding query with
       | Some ((_ :: _) as embedding) =>
           invoke (Query collection (Some [embedding]) None (n_results query)
                     (where_param query))
             (collection_query collection (Some [embedding]) None (n_results query)
                (where_param query))
       | _ =>
           invoke (Query collection None (Some [query_text query]) (n_results query)
                     (where_param query))
             (collection_query collection None (Some [query_text query])
                (n_results query) (where_param query))
       end;
     processed_results ← lift (process_results results);
     ret {| response_status := "success";
            response_results := processed_results;
            response_count := length processed_results |})
    internal_error.

(** ** [delete_embeddings] (POST /delete) *)

Definition delete_embeddings (delete_item : DeleteItem) (collection_name : string)
    : M Message :=
  try_except
    (collection ← get_collection collection_name None;
     match delete_ids delete_item with
     | Some ((_ :: _) as ids) =>
         invoke (Delete collection (Some ids) None)
           (collection_delete collection (Some ids) None);;
         ret {| status := "success";
                message := "已从" +:+ collection_name +:+ "中删除"
                           +:+ pretty (length ids) +:+ "个向量" |}
     | _ =>
         if truthy_dict (delete_where delete_item) then
           invoke (Delete collection None (delete_where delete_item))
             (collection_delete collection None (delete_where delete_item));;
           ret {| status := "success";
                  message := "已从" +:+ collection_name +:+ "中删除符合条件的向量" |}
         else raise (HTTPException 400 "必须提供ids或where参数")
     end)
    internal_error.

(** ** [delete_collection] (DELETE /collection/{collection_name}) *)

Definition delete_collection (collection_name : string) : M Message :=
  try_except
    (invoke (DeleteCollection collection_name)
       (client_delete_collection collection_name);;
     cached ← cache_contains collection_name;
     (if cached : bool then cache_del collection_name else ret tt);;
     ret {| status := "success";
            message := "已删除collection: " +:+ collection_name |})
    internal_error.

End Server.

(** ** An in-memory client for concrete runs *)

(** A small implementation of the [ChromaClient] interface, used to run the
    handlers on concrete requests.  It keeps, per persisted collection name,
    the rows added so far.  Opening a missing collection, creating an
    existing one and dropping a missing one raise, and [add] rejects lists of
    different lengths, as chromadb does.  Nearest-neighbour search is outside
    this layer: every query on an existing collection is answered with the
    fixed [answer] the client was built with. *)
Module InMemory.

(** Metadata values of the concrete runs. *)
Inductive scalar :=
| SStr (s : string)
| SInt (n : Z)
| SBool (b : bool).

(** Vector components of the concrete runs. *)
Definition number : Type := Z.

Record row := {
  row_id : string;
  row_embedding : option (list number);
  row_document : string;
  row_metadata : gmap string scalar
}.

(** Persisted collections: name to rows, oldest first. *)
Definition store : Type := gmap string (list row).

(** A collection object: its name and the embedding function it was opened with. *)
Record handle := {
  handle_name : string;
  handle_embedding_function : EmbeddingFunction
}.

Definition missing (name : string) : exn :=
  LibraryError ("Collection " +:+ name +:+ " does not exist.").

Definition get (name : string) (ef : EmbeddingFunction) (s : store)
    : result handle * store :=
  match s !! name with
  | Some _ => (Return {| handle_name := name; handle_embedding_function := ef |}, s)
  | None => (Raise (missing name), s)
  end.

Definition create (name : string) (ef : EmbeddingFunction) (s : store)
    : result handle * store :=
  match s !! name with
  | Some _ => (Raise (LibraryError ("Collection " +:+ name +:+ " already exists.")), s)
  | None =>
      (Return {| handle_name := name; handle_embedding_function := ef |},
       <[name := []]> s)
  end.

Definition drop (name : string) (s : store) : result unit * store :=
  match s !! name with
  | Some _ => (Return tt, delete name s)
  | None => (Raise (missing name), s)
  end.

Definition list_all (s : store) : result (list handle) * store :=
  (Return ((fun kv => {| handle_name := kv.1;
                         handle_embedding_function := default_ef |})
             <$> map_to_list s), s).

(** The rows of an [add] call, one per id. *)
Fixpoint rows_of (ids : list string) (embeddings : option (list (list number)))
    (documents : list string) (metadatas : list (gmap string scalar)) : list row :=
  match ids, documents, metadatas with
  | i :: ids', d :: documents', m :: metadatas' =>
      {| row_id := i;
         row_embedding := embeddings ≫= head;
         row_document := d;
         row_metadata := m |}
      :: rows_of ids' (tail <$> embeddings) documents' metadatas'
  | _, _, _ => []
  end.

Definition add (c : handle) (ids : list string)
    (embeddings : option (list (list number))) (documents : list string)
    (metadatas : list (gmap string scalar)) (s : store) : result unit * store :=
  match s !! handle_name c with
  | None => (Raise (missing (handle_name c)), s)
  | Some rows =>
      if negb (Nat.eqb (length documents) (length ids)) then
        (Raise (LibraryError ("Number of documents " +:+ pretty (length documents)
                              +:+ " must match number of ids "
                              +:+ pretty (length ids))), s)
      else if negb (Nat.eqb (length metadatas) (length ids)) then
        (Raise (LibraryError ("Number of metadatas " +:+ pretty (length metadatas)
                              +:+ " must match number of ids "
                              +:+ pretty (length ids))), s)
      else if negb (Nat.eqb (from_option length (length ids) embeddings) (length ids)) then
        (Raise (LibraryError ("Number of embeddings "
                              +:+ pretty (from_option length 0 embeddings)
                              +:+ " must match number of ids "
                              +:+ pretty (length ids))), s)
      else
        (Return tt,
         <[handle_name c := (rows ++ rows_of ids embeddings documents metadatas)%list]> s)
  end.

Definition query (answer : @QueryResult number scalar) (c : handle)
    (query_embeddings : option (list (list number)))
    (query_texts : option (list string)) (n : Z)
    (where_ : option (gmap string scalar)) (s : store)
    : result (@QueryResult number scalar) * store :=
  match s !! handle_name c with
  | None => (Raise (missing (handle_name c)), s)
  | Some _ => (Return answer, s)
  end.

Definition row_selected (ids : option (list string))
    (where_ : option (gmap string scalar)) (r : row) : bool :=
  match ids with
  | Some l => bool_decide (row_id r ∈ l)
  | None =>
      match where_ with
      | Some w => bool_decide (map_Forall (fun k _ => is_Some (row_metadata r !! k)) w)
      | None => false
      end
  end.

Definition delete_rows (c : handle) (ids : option (list string))
    (where_ : option (gmap string scalar)) (s : store) : result unit * store :=
  match s !! handle_name c with
  | None => (Raise (missing (handle_name c)), s)
  | Some rows =>
      (Return tt,
       <[handle_name c := filter (fun r => row_selected ids where_ r = false) rows]> s)
  end.

Definition client (answer : @QueryResult number scalar)
    : @ChromaClient number scalar store handle :=
  {| client_get_collection := get;
     client_create_collection := create;
     client_delete_collection := drop;
     client_list_collections := list_all;
     collection_name_of := handle_name;
     collection_add := add;
     collection_query := query answer;
     collection_delete := delete_rows |}.

(** A fresh process over a store [s]: nothing cached, no call made yet. *)
Definition fresh (s : store) : @world number scalar store handle :=
  {| chroma_client := s; collections := ∅; calls := [] |}.

End InMemory.

(** ** Vocabulary of the properties *)

Section Vocabulary.

Context {float Any Store Collection : Type}.

(** The state after one more call to chromadb that left the store as [s]. *)
Definition after_call (w : @world float Any Store Collection) (s : Store)
    (what : @invocation float Any Collection) (ok : bool) : world :=
  {| chroma_client := s;
     collections := collections w;
     calls := calls w ++ [{| call_what := what; call_returned := ok |}] |}.

(** The state with [c] cached under [name]. *)
Definition with_cached (w : @world float Any Store Collection) (name : string)
    (c : Collection) : world :=
  {| chroma_client := chroma_client w;
     collections := <[name := c]> (collections w);
     calls := calls w |}.

(** A [create_collection] call for [name] that returned: a collection was created. *)
Definition is_creation (name : string) (c : @call float Any Collection) : bool :=
  match call_what c with
  | CreateCollection n _ => bool_decide (n = name) && call_returned c
  | _ => false
  end.

(** How many collections named [name] were created by the calls [cs]. *)
Definition creations (name : string) (cs : list (@call float Any Collection)) : nat :=
  length (List.filter (is_creation name) cs).

(** A call that opens or creates the collection [name]. *)
Definition resolves (name : string) (c : @call float Any Collection) : Prop :=
  match call_what c with
  | GetCollection n _ | CreateCollection n _ => n = name
  | _ => False
  end.

(** The first row of an optional field of the store's answer, when the field
    is there: [None] for a field that is [None], empty, or has an empty first
    row. *)
Definition first_row {A : Type} (field : option (list (list A))) : option (list A) :=
  match field with
  | Some (((_ :: _) as row) :: _) => Some row
  | _ => None
  end.

(** A field that is there runs parallel to the ids. *)
Definition parallel {A : Type} (field : option (list (list A))) (ids0 : list string)
    : Prop :=
  match first_row field with
  | Some row => length row = length ids0
  | None => True
  end.

(** An index-parallel answer to a single query: one row of ids, and every
    field that is there has as many entries as there are ids. *)
Definition index_parallel (results : @QueryResult float Any) : Prop :=
  match res_ids results with
  | [] => False
  | ids0 :: _ =>
      parallel (res_documents results) ids0 ∧
      parallel (res_metadatas results) ids0 ∧
      parallel (res_distances results) ids0
  end.

(** The ids returned for the single query. *)
Definition returned_ids (results : @QueryResult float Any) : list string :=
  default [] (head (res_ids results)).

(** What the spec asks of the [i]-th result item: the [i]-th id, and for each
    of documents, metadatas and distances the parallel entry when the field
    is there, [None] (the empty mapping for metadata) when it is not. *)
Definition item_matches (results : @QueryResult float Any) (i : nat)
    (item : @QueryResultItem float Any) : Prop :=
  returned_ids results !! i = Some (result_id item) ∧
  match first_row (res_documents results) with
  | Some row => row !! i = Some (result_text item)
  | None => result_text item = None
  end ∧
  match first_row (res_metadatas results) with
  | Some row => row !! i = Some (result_metadata item)
  | None => result_metadata item = Some ∅
  end ∧
  match first_row (res_distances results) with
  | Some row => row !! i = result_distance item
  | None => result_distance item = None
  end.

(** The [collection.query] call that [query_similar] makes for [query]. *)
Definition store_query {client : @ChromaClient float Any Store Collection}
    (query : @QueryItem float Any) (c : Collection)
    : Store → result (@QueryResult float Any) * Store :=
  match query_embedding query with
  | Some ((_ :: _) as embedding) =>
      collection_query c (Some [embedding]) None (n_results query) (where_param query)
  | _ =>
      collection_query c None (Some [query_text query]) (n_results query)
        (where_param query)
  end.

End Vocabulary.

(** ** Concrete requests *)

Module Examples.
Import InMemory.

(** A store answer for two matches, without metadatas. *)
Definition answer : @QueryResult number scalar :=
  {| res_ids := [["a"; "b"]];
     res_documents := Some [[Some "x"; None]];
     res_metadatas := None;
     res_distances := Some [[1%Z; 2%Z]] |}.

#[export] Instance memory : @ChromaClient number scalar store handle := client answer.

(** One id, no text. *)
Definition ids_without_texts : @EmbeddingBatchItem number scalar :=
  {| batch_ids := ["a"]; batch_texts := [];
     batch_metadatas := None; batch_embeddings := None |}.

(** Two ids and texts, one vector. *)
Definition short_embeddings : @EmbeddingBatchItem number scalar :=
  {| batch_ids := ["a"; "b"]; batch_texts := ["x"; "y"];
     batch_metadatas := None; batch_embeddings := Some [[1%Z]] |}.

(** Two ids and texts, one metadata mapping. *)
Definition short_metadatas : @EmbeddingBatchItem number scalar :=
  {| batch_ids := ["a"; "b"]; batch_texts := ["x"; "y"];
     batch_metadatas := Some [{["k" := SStr "v"]}]; batch_embeddings := None |}.

(** Neither [ids] nor [where]. *)
Definition no_selection : @DeleteItem scalar :=
  {| delete_ids := None; delete_where := None |}.

(** A text query filtered on one metadata key. *)
Definition filtered_query : @QueryItem number scalar :=
  {| query_text := "hello"; n_results := 3;
     query_where := Some {["k" := SStr "v"]}; query_embedding := None |}.

(** A delete request by [where] alone. *)
Definition by_where : @DeleteItem scalar :=
  {| delete_ids := None; delete_where := Some {["k" := SStr "v"]} |}.

(** The collection object the in-memory client gives for ["default"]. *)
Definition default_handle : handle :=
  {| handle_name := "default"; handle_embedding_function := DefaultEmbeddingFunction |}.

(** A process that has ["default"] persisted and cached. *)
Definition warm : @world number scalar store handle :=
  {| chroma_client := {["default" := []]};
     collections := {["default" := default_handle]};
     calls := [] |}.

End Examples.

(** ** The application: routes and the remaining handlers *)

Section Application.

Context {float Any Store Collection : Type}.
Context {client : @ChromaClient float Any Store Collection}.

(** [root] (GET /) *)
Definition root : @M float Any Store Collection Message :=
  ret {| status := "ok"; message := "NovelAssist向量数据库服务运行中" |}.

(** [health_check] (GET /health): the value of the one key ["status"]. *)
Definition health_check : @M float Any Store Collection string :=
  ret "ok".

(** A request, as the route decorators dispatch it.  [collection_name] is a
    query parameter of the four record routes, [None] when the caller leaves
    it out, and a path parameter of the drop route. *)
Inductive request :=
| GET_root
| GET_health
| GET_collections
| POST_embed (item : @EmbeddingItem float Any) (collection_name : option string)
| POST_embed_batch (item : @EmbeddingBatchItem float Any) (collection_name : option string)
| POST_query (query : @QueryItem float Any) (collection_name : option string)
| POST_delete (delete_item : @DeleteItem Any) (collection_name : option string)
| DELETE_collection (collection_name : string).

(** The JSON body of a response. *)
Inductive body :=
| MessageBody (m : Message)
| HealthBody (status_ : string)
| CollectionsBody (names : list string)
| QueryBody (r : @QueryResponse float Any).

(** The default of the [collection_name] query parameter. *)
Definition or_default_name (collection_name : option string) : string :=
  default "default" collection_name.

(** The handler's return value as the body of the response. *)
Definition respond {A : Type} (wrap : A → body)
    (handler : @M float Any Store Collection A) : M body :=
  bind handler (fun a => ret (wrap a)).

(** Running the handler of a request. *)
Definition serve (r : request) : M body :=
  match r with
  | GET_root => respond MessageBody root
  | GET_health => respond HealthBody health_check
  | GET_collections => respond CollectionsBody list_collections
  | POST_embed item collection_name =>
      respond MessageBody (create_embedding item (or_default_name collection_name))
  | POST_embed_batch item collection_name =>
      respond MessageBody
        (create_embeddings_batch item (or_default_name collection_name))
  | POST_query query collection_name =>
      respond QueryBody (query_similar query (or_default_name collection_name))
  | POST_delete delete_item collection_name =>
      respond MessageBody (delete_embeddings delete_item (or_default_name collection_name))
  | DELETE_collection collection_name =>
      respond MessageBody (delete_collection collection_name)
  end.

(** Requests handled one after the other, each to its end; the state they
    leave. *)
Fixpoint serve_all (rs : list request) (w : @world float Any Store Collection) : world :=
  match rs with
  | [] => w
  | r :: rs' => serve_all rs' (serve r w).2
  end.

(** The collection a request names, if it names one. *)
Definition target (r : request) : option string :=
  match r with
  | GET_root | GET_health | GET_collections => None
  | POST_embed _ n | POST_embed_batch _ n | POST_query _ n | POST_delete _ n =>
      Some (or_default_name n)
  | DELETE_collection n => Some n
  end.

(** A request that drops the collection [name]. *)
Definition drops (name : string) (r : request) : Prop :=
  match r with
  | DELETE_collection n => n = name
  | _ => False
  end.

(** A call on a collection object: [add], [query] or [delete]. *)
Definition on_records (c : @call float Any Collection) : Prop :=
  match call_what c with
  | Add _ _ _ _ _ | Query _ _ _ _ _ | Delete _ _ _ => True
  | _ => False
  end.

(** The embedding function an open or create call was given. *)
Definition given_embedding_function (c : @call float Any Collection)
    : option EmbeddingFunction :=
  match call_what c with
  | GetCollection _ ef | CreateCollection _ ef => Some ef
  | _ => None
  end.

(** An [add] call whose lists the store can pair up: as many documents as
    ids, and as many vectors as ids when vectors are given. *)
Definition add_lengths_agree (c : @call float Any Collection) : Prop :=
  match call_what c with
  | Add _ ids embeddings documents _ =>
      length documents = length ids ∧
      match embeddings with
      | Some es => length es = length ids
      | None => True
      end
  | _ => True
  end.

(** [w'] is what a record handler leaves when run for [name] from [w]: the
    cache as the resolve of [name] left it, and after the calls of that
    resolve at most one more call, made on the collection object. *)
Definition after_resolve (name : string) (w w' : @world float Any Store Collection)
    : Prop :=
  collections w' = collections (get_collection name None w).2 ∧
  ∃ extra : list (@call float Any Collection),
    calls w' = (calls (get_collection name None w).2 ++ extra)%list ∧
    (length extra ≤ 1)%nat ∧
    Forall on_records extra.

(** A call that, when it opens or creates a collection, does so with the
    default embedding function. *)
Definition with_default_ef (c : @call float Any Collection) : Prop :=
  match given_embedding_function c with
  | Some ef => ef = default_ef
  | None => True
  end.

(** What [query_similar] gives back once the store has ended the [query]
    call [what], made from the state [w1], with [answer]: the reshaped
    results on a return (status 500 when the reshaping raises), status 500
    with the store's message on a raise; the call is on record. *)
Definition query_outcome (w1 : @world float Any Store Collection)
    (what : @invocation float Any Collection)
    (answer : result (@QueryResult float Any) * Store)
    : result (@QueryResponse float Any) * @world float Any Store Collection :=
  match answer with
  | (Return results, s2) =>
      (match process_results results with
       | Return processed_results =>
           Return {| response_status := "success";
                     response_results := processed_results;
                     response_count := length processed_results |}
       | Raise e => Raise (HTTPException 500 (str e))
       end,
       after_call w1 s2 what true)
  | (Raise e, s2) => (Raise (HTTPException 500 (str e)), after_call w1 s2 what false)
  end.

(** A field of the store's answer that has an entry for every id. *)
Definition covers {A : Type} (field : option (list (list A))) (ids0 : list string)
    : Prop :=
  match first_row field with
  | Some row => (length ids0 ≤ length row)%nat
  | None => True
  end.

(** An answer the loop of [query_similar] can index: one row of ids at
    least, and every field that is there has an entry for every id. *)
Definition answer_covered (results : @QueryResult float Any) : Prop :=
  match res_ids results with
  | [] => False
  | ids0 :: _ =>
      covers (res_documents results) ids0 ∧
      covers (res_metadatas results) ids0 ∧
      covers (res_distances results) ids0
  end.

(** The [embeddings] argument [create_embedding] gives to [add]. *)
Definition embeddings_of (item : @EmbeddingItem float Any) : option (list (list float)) :=
  match item_embedding item with
  | Some ((_ :: _) as embedding) => Some [embedding]
  | _ => None
  end.

End Application.

(** ** A client whose store cannot be reached *)

(** Every call raises; used to run the failure paths. *)
Module Offline.

Definition unreachable : exn := LibraryError "Could not connect to the database".

Definition fail {A : Type} (s : unit) : result A * unit := (Raise unreachable, s).

Definition client : @ChromaClient InMemory.number InMemory.scalar unit unit :=
  {| client_get_collection := fun _ _ => fail;
     client_create_collection := fun _ _ => fail;
     client_delete_collection := fun _ => fail;
     client_list_collections := fail;
     collection_name_of := fun _ => "";
     collection_add := fun _ _ _ _ _ => fail;
     collection_query := fun _ _ _ _ _ => fail;
     collection_delete := fun _ _ _ => fail |}.

(** A process with nothing cached and no call made. *)
Definition fresh : @world InMemory.number InMemory.scalar unit unit :=
  {| chroma_client := tt; collections := ∅; calls := [] |}.

End Offline.

(** ** More concrete requests *)

Module Requests.
Import InMemory.

(** A record with an explicit vector. *)
Definition embedded_item : @EmbeddingItem number scalar :=
  {| item_id := "a"; item_text := "x"; item_metadata := {["k" := SStr "v"]};
     item_embedding := Some [1%Z; 2%Z] |}.

(** Two ids and texts, nothing else. *)
Definition plain_batch : @EmbeddingBatchItem number scalar :=
  {| batch_ids := ["a"; "b"]; batch_texts := ["x"; "y"];
     batch_metadatas := None; batch_embeddings := None |}.

(** A text query with the defaults, for the default collection. *)
Definition hello_query : @QueryItem number scalar := QueryItem_defaults "hello".

Definition hello_request : @request number scalar := POST_query hello_query None.

(** Requests for two collections, none of them a drop of "default". *)
Definition session : list (@request number scalar) :=
  [GET_health;
   POST_embed embedded_item None;
   POST_embed_batch plain_batch (Some "notes");
   hello_request;
   DELETE_collection "notes";
   GET_collections].

End Requests.

(** * install_deps.py: the dependency installer

    The script talks to the machine it runs on (the OS name, the Python
    version, the file system, the [pip] process).  The machine is a record
    of what those answer; what the script prints and runs is kept, in
    order, as a list of events. *)

Module InstallDeps.

(** What the script does to the outside. *)
Inductive event :=
| Printed (line : string)
| Ran (cmd : list string).

(** How [subprocess.run(cmd, check=True, ...)] ends: with the captured
    output, with [CalledProcessError] (its [str()] and its [stderr]), or
    with any other exception, such as the one for a missing executable. *)
Inductive run_outcome :=
| Completed (stdout : string)
| CalledProcessError (str_e : string) (stderr : string)
| OtherError (str_e : string).

Record machine := {
  os_name : string;
  version_major : Z;
  version_minor : Z;
  sys_version : string;
  platform_system : string;
  platform_release : string;
  (** [os.path.dirname(os.path.abspath(__file__))] *)
  script_dir : string;
  path_join : string → string → string;
  path_exists : string → bool;
  subprocess_run : list string → run_outcome
}.

(** Exceptions of the script. *)
Inductive pyexn :=
| CalledProcessError_exn (str_e : string) (stderr : string)
| Other_exn (str_e : string)
| SystemExit (code : Z).

Inductive outcome (A : Type) :=
| Returns (a : A)
| Raises (e : pyexn).
Arguments Returns {A} a.
Arguments Raises {A} e.

(** Script code: it extends the list of events and returns or raises. *)
Definition P (A : Type) : Type := list event → outcome A * list event.

Definition pure {A : Type} (a : A) : P A := fun log => (Returns a, log).

Definition then_ {A B : Type} (m : P A) (k : A → P B) : P B :=
  fun log =>
    match m log with
    | (Returns a, log') => k a log'
    | (Raises e, log') => (Raises e, log')
    end.

Definition print (line : string) : P unit :=
  fun log => (Returns tt, log ++ [Printed line])%list.

(** [sys.exit(code)] *)
Definition sys_exit {A : Type} (code : Z) : P A :=
  fun log => (Raises (SystemExit code), log).

(** [subprocess.run(cmd, check=True, stderr=PIPE, stdout=PIPE, text=True)];
    the value is [process.stdout]. *)
Definition run (m : machine) (cmd : list string) : P string :=
  fun log =>
    (match subprocess_run m cmd with
     | Completed stdout => Returns stdout
     | CalledProcessError str_e stderr => Raises (CalledProcessError_exn str_e stderr)
     | OtherError str_e => Raises (Other_exn str_e)
     end, log ++ [Ran cmd])%list.

(** [try: body except subprocess.CalledProcessError as e: handler] *)
Definition try_except_CalledProcessError {A : Type} (body : P A)
    (handler : string → string → P A) : P A :=
  fun log =>
    match body log with
    | (Raises (CalledProcessError_exn str_e stderr), log') => handler str_e stderr log'
    | other => other
    end.

Declare Scope script_scope.
Notation "x ← m ; k" := (then_ m (fun x => k))
  (at level 20, m at level 100, k at level 200, only parsing) : script_scope.
Notation "m ;; k" := (then_ m (fun _ => k))
  (at level 100, k at level 200, right associativity, only parsing) : script_scope.
Local Open Scope script_scope.

(** ["=" * 60] *)
Definition rule : string := String.concat "" (replicate 60 "=").

(** [get_pip_cmd] *)
Definition get_pip_cmd (m : machine) : string :=
  if String.eqb (os_name m) "nt" then "pip" else "pip3".

(** [install_dependencies] *)
Definition install_dependencies (m : machine) : P bool :=
  print "开始安装依赖...";;
  let pip_cmd := get_pip_cmd m in
  let requirements_path := path_join m (script_dir m) "requirements.txt" in
  if negb (path_exists m requirements_path) then
    print ("错误: 找不到依赖文件 " +:+ requirements_path);;
    pure false
  else
    try_except_CalledProcessError
      (let cmd := [pip_cmd; "install"; "-r"; requirements_path] in
       print ("执行命令: " +:+ String.concat " " cmd);;
       stdout ← run m cmd;
       print stdout;;
       print "依赖安装完成!";;
       pure true)
      (fun str_e stderr =>
       print ("安装依赖失败: " +:+ str_e);;
       print ("错误信息: " +:+ stderr);;
       pure false).

Definition required_major : Z := 3.
Definition required_minor : Z := 8.

(** [check_python_version] *)
Definition check_python_version (m : machine) : P bool :=
  let current_major := version_major m in
  let current_minor := version_minor m in
  if (current_major <? required_major)%Z
     || ((current_major =? required_major)%Z && (current_minor <? required_minor)%Z)
  then
    print ("错误: 需要Python " +:+ pretty required_major +:+ "."
           +:+ pretty required_minor +:+ "或更高版本");;
    print ("当前Python版本: " +:+ sys_version m);;
    pure false
  else
    print ("Python版本检查通过: " +:+ sys_version m);;
    pure true.

(** [main] *)
Definition main (m : machine) : P unit :=
  print rule;;
  print "NovelAssist向量数据库服务依赖安装";;
  print rule;;
  print ("操作系统: " +:+ platform_system m +:+ " " +:+ platform_release m);;
  ok ← check_python_version m;
  (if negb ok then sys_exit 1 else pure tt);;
  ok ← install_dependencies m;
  (if negb ok then sys_exit 1 else pure tt);;
  print (String (Ascii.ascii_of_nat 10) "依赖安装成功!");;
  print "你现在可以运行 chroma_server.py 来启动向量数据库服务";;
  print rule.

(** The commands run, in order. *)
Definition commands (log : list event) : list (list string) :=
  omap (fun e => match e with Ran cmd => Some cmd | Printed _ => None end) log.

(** The version is at least 3.8. *)
Definition supported (major minor : Z) : Prop :=
  (3 < major ∨ (major = 3 ∧ 8 ≤ minor))%Z.

(** A Linux machine with Python 3.10 and a requirements file on which
    [pip3] completes. *)
Definition linux : machine :=
  {| os_name := "posix";
     version_major := 3;
     version_minor := 10;
     sys_version := "3.10.12 (main)";
     platform_system := "Linux";
     platform_release := "6.1";
     script_dir := "/srv/app/python";
     path_join := fun a b => a +:+ "/" +:+ b;
     path_exists := fun p => String.eqb p "/srv/app/python/requirements.txt";
     subprocess_run := fun _ => Completed "Successfully installed chromadb" |}.

(** The same machine with Python 3.7. *)
Definition old_python : machine :=
  {| os_name := "posix";
     version_major := 3;
     version_minor := 7;
     sys_version := "3.7.17 (default)";
     platform_system := "Linux";
     platform_release := "6.1";
     script_dir := "/srv/app/python";
     path_join := fun a b => a +:+ "/" +:+ b;
     path_exists := fun p => String.eqb p "/srv/app/python/requirements.txt";
     subprocess_run := fun _ => Completed "Successfully installed chromadb" |}.

End InstallDeps.

(** * chroma_server.py: start-up

    [startup_db_client] and the [__main__] block talk to the operating
    system and to the constructors of chromadb.  Those are an interface
    ([Platform]) over an opaque system state; the calls made are kept in
    order. *)

Module Startup.

(** A call to the outside made while starting, with its arguments. *)
Inductive event :=
| Makedirs (path : string)
| PersistentClient (path : string)
| NewOpenAIEmbeddingFunction (api_key : string) (model_name : string)
| NewDefaultEmbeddingFunction.

Section Boot.

Context {Sys Store : Type}.

(** [os.path.abspath], [os.makedirs(path, exist_ok=True)],
    [chromadb.PersistentClient(path=..., settings=Settings(anonymized_telemetry=False))],
    [OpenAIEmbeddingFunction(api_key=..., model_name=...)] and
    [DefaultEmbeddingFunction()]. *)
Class Platform := {
  abspath : string → string;
  makedirs : string → Sys → result unit * Sys;
  persistent_client : string → Sys → result Store * Sys;
  openai_embedding_function : string → string → Sys → result unit * Sys;
  default_embedding_function : Sys → result unit * Sys
}.

Context {platform : Platform}.

(** The globals that [startup_db_client] assigns, [os.environ], the system
    and the calls made so far. *)
Record process := {
  VECTOR_DB_PATH : option string;
  chroma_client : option Store;
  openai_ef : option EmbeddingFunction;
  default_ef : option EmbeddingFunction;
  environ : gmap string string;
  sys : Sys;
  log : list event
}.

Definition B (A : Type) : Type := process → result A * process.

Definition unit_ {A : Type} (a : A) : B A := fun p => (Return a, p).

Definition and_then {A C : Type} (m : B A) (k : A → B C) : B C :=
  fun p =>
    match m p with
    | (Return a, p') => k a p'
    | (Raise e, p') => (Raise e, p')
    end.

(** [try: body except Exception as e: handler] *)
Definition try_ {A : Type} (body : B A) (handler : exn → B A) : B A :=
  fun p =>
    match body p with
    | (Return a, p') => (Return a, p')
    | (Raise e, p') => handler e p'
    end.

Declare Scope boot_scope.
Notation "x ← m ; k" := (and_then m (fun x => k))
  (at level 20, m at level 100, k at level 200, only parsing) : boot_scope.
Notation "m ;; k" := (and_then m (fun _ => k))
  (at level 100, k at level 200, right associativity, only parsing) : boot_scope.
Local Open Scope boot_scope.

(** Calling the outside: run it on the system and note the call. *)
Definition call {A : Type} (what : event) (f : Sys → result A * Sys) : B A :=
  fun p =>
    let (r, sys') := f (sys p) in
    (r, {| VECTOR_DB_PATH := VECTOR_DB_PATH p; chroma_client := chroma_client p;
           openai_ef := openai_ef p; default_ef := default_ef p;
           environ := environ p; sys := sys'; log := (log p ++ [what])%list |}).

(** [os.environ.get(key, default)] *)
Definition environ_get (key default_ : string) : B string :=
  fun p => (Return (default default_ (environ p !! key)), p).

(** [os.environ[key] = value] *)
Definition environ_set (key value : string) : B unit :=
  fun p =>
    (Return tt,
     {| VECTOR_DB_PATH := VECTOR_DB_PATH p; chroma_client := chroma_client p;
        openai_ef := openai_ef p; default_ef := default_ef p;
        environ := <[key := value]> (environ p); sys := sys p; log := log p |}).

Definition set_VECTOR_DB_PATH (path : string) : B unit :=
  fun p =>
    (Return tt,
     {| VECTOR_DB_PATH := Some path; chroma_client := chroma_client p;
        openai_ef := openai_ef p; default_ef := default_ef p;
        environ := environ p; sys := sys p; log := log p |}).

Definition set_chroma_client (client : Store) : B unit :=
  fun p =>
    (Return tt,
     {| VECTOR_DB_PATH := VECTOR_DB_PATH p; chroma_client := Some client;
        openai_ef := openai_ef p; default_ef := default_ef p;
        environ := environ p; sys := sys p; log := log p |}).

Definition set_openai_ef (ef : option EmbeddingFunction) : B unit :=
  fun p =>
    (Return tt,
     {| VECTOR_DB_PATH := VECTOR_DB_PATH p; chroma_client := chroma_client p;
        openai_ef := ef; default_ef := default_ef p;
        environ := environ p; sys := sys p; log := log p |}).

Definition set_default_ef (ef : EmbeddingFunction) : B unit :=
  fun p =>
    (Return tt,
     {| VECTOR_DB_PATH := VECTOR_DB_PATH p; chroma_client := chroma_client p;
        openai_ef := openai_ef p; default_ef := Some ef;
        environ := environ p; sys := sys p; log := log p |}).

(** Truth value of a [str]: the empty string is false. *)
Definition truthy_str (s : string) : bool := negb (String.eqb s "").

(** [startup_db_client] *)
Definition startup_db_client : B unit :=
  path ← environ_get "VECTOR_DB_PATH" (abspath "../resources/vector_db");
  set_VECTOR_DB_PATH path;;
  call (Makedirs path) (makedirs path);;
  client ← call (PersistentClient path) (persistent_client path);
  set_chroma_client client;;
  openai_api_key ← environ_get "OPENAI_API_KEY" "";
  (if truthy_str openai_api_key then
     try_
       (call (NewOpenAIEmbeddingFunction openai_api_key "text-embedding-ada-002")
          (openai_embedding_function openai_api_key "text-embedding-ada-002");;
        set_openai_ef (Some OpenAIEmbeddingFunction))
       (fun _ => set_openai_ef None)
   else unit_ tt);;
  call NewDefaultEmbeddingFunction default_embedding_function;;
  set_default_ef DefaultEmbeddingFunction.

(** The parsed command line: [--host], [--port], [--db-path]. *)
Record args := {
  host : string;
  port : Z;
  db_path : option string
}.

(** The defaults of the parser. *)
Definition default_args : args :=
  {| host := "127.0.0.1"; port := 8000; db_path := None |}.

(** The [__main__] block up to [uvicorn.run]: a given [--db-path] is put
    in the environment. *)
Definition set_db_path (a : args) : B unit :=
  match db_path a with
  | Some p => if truthy_str p then environ_set "VECTOR_DB_PATH" p else unit_ tt
  | None => unit_ tt
  end.

(** The [__main__] block followed by the start-up hook that [uvicorn.run]
    runs before it serves. *)
Definition launch (a : args) : B unit :=
  set_db_path a;;
  startup_db_client.

(** The process [p] after its globals were assigned, the system became [s]
    and the calls [called] were made. *)
Definition assigned (p : process) (path : option string) (client : option Store)
    (openai default_ : option EmbeddingFunction) (s : Sys) (called : list event)
    : process :=
  {| VECTOR_DB_PATH := path; chroma_client := client; openai_ef := openai;
     default_ef := default_; environ := environ p; sys := s;
     log := (log p ++ called)%list |}.

(** The database path start-up settles on. *)
Definition resolved_path (env : gmap string string) : string :=
  default (abspath "../resources/vector_db") (env !! "VECTOR_DB_PATH").

(** An event on the database path: the only paths touched are [path]. *)
Definition on_path (path : string) (e : event) : Prop :=
  match e with
  | Makedirs p | PersistentClient p => p = path
  | _ => True
  end.

End Boot.

End Startup.

(** ** Properties of the handlers, for every chromadb client *)

Section Properties.

Context {float Any Store Collection : Type}.
Context {client : @ChromaClient float Any Store Collection}.

Local Open Scope nat_scope.
Local Open Scope list_scope.

Implicit Types (w : @world float Any Store Collection) (name : string).
Implicit Types (ef : option EmbeddingFunction) (c : Collection).

(** *** [get_collection] *)

(** The three ways a resolve can go: a cache hit, an open, or a create after
    a failed open. *)
Lemma get_collection_unfold name ef w :
  get_collection name ef w =
  match collections w !! name with
  | Some c => (Return c, w)
  | None =>
      match client_get_collection name (or_default_ef ef) (chroma_client w) with
      | (Return c, s1) =>
          (Return c,
           with_cached (after_call w s1 (GetCollection name (or_default_ef ef)) true)
             name c)
      | (Raise _, s1) =>
          let w1 := after_call w s1 (GetCollection name (or_default_ef ef)) false in
          match client_create_collection name (or_default_ef ef) s1 with
          | (Return c, s2) =>
              (Return c,
               with_cached
                 (after_call w1 s2 (CreateCollection name (or_default_ef ef)) true)
                 name c)
          | (Raise e, s2) =>
              (Raise e, after_call w1 s2 (CreateCollection name (or_default_ef ef)) false)
          end
      end
  end.
Proof.
  unfold get_collection, mbind, M_bind, bind, cache_contains, try_except, invoke.
  destruct (collections w !! name) as [c|] eqn:Hc; simpl.
  - unfold cache_item. rewrite Hc. reflexivity.
  - destruct (client_get_collection name (or_default_ef ef) (chroma_client w))
      as [[c|e] s1]; simpl.
    + unfold cache_item; simpl. rewrite lookup_insert_eq. reflexivity.
    + destruct (client_create_collection name (or_default_ef ef) s1)
        as [[c|e'] s2]; simpl.
      * unfold cache_item; simpl. rewrite lookup_insert_eq. reflexivity.
      * reflexivity.
Qed.

(** A resolve that returns leaves the returned object cached under the name. *)
Lemma get_collection_caches name ef w c w1 :
  get_collection name ef w = (Return c, w1) → collections w1 !! name = Some c.
Proof.
  rewrite get_collection_unfold.
  destruct (collections w !! name) as [c0|] eqn:Hc.
  - intros [= <- <-]. exact Hc.
  - destruct (client_get_collection _ _ _) as [[c1|e] s1].
    + intros [= <- <-]. simpl. apply lookup_insert_eq.
    + simpl. destruct (client_create_collection _ _ _) as [[c1|e'] s2].
      * intros [= <- <-]. simpl. apply lookup_insert_eq.
      * discriminate.
Qed.

Lemma creations_app name (l l' : list (@call float Any Collection)) :
  creations name (l ++ l') = creations name l + creations name l'.
Proof. unfold creations. rewrite List.filter_app, length_app. reflexivity. Qed.

(** One resolve creates at most one collection, and none when it raises. *)
Lemma get_collection_creations name ef w :
  creations name (calls (get_collection name ef w).2) ≤ creations name (calls w) + 1 ∧
  (returned (get_collection name ef w).1 = false →
   creations name (calls (get_collection name ef w).2) = creations name (calls w)).
Proof.
  rewrite get_collection_unfold.
  destruct (collections w !! name) as [c0|]; simpl; [split; [lia|done]|].
  destruct (client_get_collection _ _ _) as [[c1|e] s1]; simpl.
  - rewrite creations_app. cbn. split; [lia|done].
  - destruct (client_create_collection _ _ _) as [[c1|e'] s2]; simpl;
      rewrite !creations_app; cbn; rewrite ?andb_false_r, ?andb_true_r; cbn.
    + rewrite bool_decide_eq_true_2 by done. cbn. split; [lia|done].
    + split; [lia|intros _; lia].
Qed.

(** The calls of a resolve are opens and creates of that name, nothing else. *)
Lemma get_collection_calls name ef w :
  ∃ new, calls (get_collection name ef w).2 = calls w ++ new ∧ Forall (resolves name) new.
Proof.
  rewrite get_collection_unfold.
  destruct (collections w !! name) as [c0|]; simpl.
  { exists []. by rewrite app_nil_r. }
  destruct (client_get_collection _ _ _) as [[c1|e] s1]; simpl.
  { eexists; split; [reflexivity|]. repeat constructor. }
  destruct (client_create_collection _ _ _) as [[c1|e'] s2]; simpl;
    rewrite <- app_assoc; (eexists; split; [reflexivity|]); repeat constructor.
Qed.

(** C4: once [collection_name] has an entry in [collections], [get_collection]
    returns that entry and leaves the whole state as it was (no call to
    chromadb), whatever [embedding_function] it is given; a resolve that
    returned has left such an entry, so the next resolve of the name returns
    the same object; and two resolves in a row create at most one collection
    of that name. *)
Theorem get_collection_idempotent name ef ef' w :
  (∀ c, collections w !! name = Some c → get_collection name ef' w = (Return c, w)) ∧
  (∀ c w1, get_collection name ef w = (Return c, w1) →
     collections w1 !! name = Some c ∧ get_collection name ef' w1 = (Return c, w1)) ∧
  creations name (calls (get_collection name ef' (get_collection name ef w).2).2)
    ≤ creations name (calls w) + 1.
Proof.
  assert (Hhit : ∀ w0 c, collections w0 !! name = Some c →
                         get_collection name ef' w0 = (Return c, w0)).
  { intros w0 c Hc. rewrite get_collection_unfold, Hc. reflexivity. }
  split; [exact (Hhit w)|]. split.
  - intros c w1 H1. pose proof (get_collection_caches _ _ _ _ _ H1) as Hc. auto.
  - destruct (get_collection_creations name ef w) as [Hle Hraise].
    destruct (get_collection name ef w) as [[c|e] w1] eqn:H1; simpl in *.
    + rewrite (Hhit w1 c (get_collection_caches _ _ _ _ _ H1)). simpl. exact Hle.
    + destruct (get_collection_creations name ef' w1) as [Hle' _].
      rewrite Hraise in Hle' by reflexivity. exact Hle'.
Qed.

(** *** [delete_collection] *)

(** C8: [delete_collection] asks chromadb to drop the collection first.  When
    that call returns, the entry for [collection_name], if any, is removed
    from [collections]; when it raises, the handler fails with status 500 and
    [collections] is exactly as it was.  Either way the entries of all other
    names are as they were. *)
Theorem delete_collection_cache name w :
  match client_delete_collection name (chroma_client w) with
  | (Return _, s1) =>
      delete_collection name w =
      (Return {| status := "success"; message := "已删除collection: " +:+ name |},
       {| chroma_client := s1;
          collections := delete name (collections w);
          calls := calls w ++ [{| call_what := DeleteCollection name;
                                  call_returned := true |}] |})
  | (Raise e, s1) =>
      delete_collection name w =
      (Raise (HTTPException 500 (str e)), after_call w s1 (DeleteCollection name) false)
  end ∧
  ∀ other, other ≠ name →
    collections (delete_collection name w).2 !! other = collections w !! other.
Proof.
  unfold delete_collection, try_except, mbind, M_bind, bind, invoke, cache_contains,
    internal_error, raise.
  destruct (client_delete_collection name (chroma_client w)) as [[[]|e] s1]; simpl.
  - destruct (collections w !! name) as [c|] eqn:Hc; simpl.
    + unfold cache_del; simpl. rewrite Hc; simpl.
      split; [reflexivity|]. intros other Hne. by rewrite lookup_delete_ne.
    + rewrite delete_id by done. split; [reflexivity|done].
  - split; [reflexivity|done].
Qed.

(** *** [create_embeddings_batch] *)

(** C1, as the code has it: when [ids] and [texts] differ in length,
    [create_embeddings_batch] fails, and the state it leaves is the state
    left by resolving the collection, so the only calls made are the open
    and create calls of [get_collection] and no [add] is issued. *)
Theorem create_embeddings_batch_length_mismatch
    (item : @EmbeddingBatchItem float Any) name w :
  length (batch_ids item) ≠ length (batch_texts item) →
  (∃ e, (create_embeddings_batch item name w).1 = Raise e) ∧
  (create_embeddings_batch item name w).2 = (get_collection name None w).2 ∧
  ∃ new, calls (create_embeddings_batch item name w).2 = calls w ++ new ∧
         Forall (resolves name) new.
Proof.
  intros Hne.
  assert (Hw : (create_embeddings_batch item name w).2 = (get_collection name None w).2
               ∧ ∃ e, (create_embeddings_batch item name w).1 = Raise e).
  { unfold create_embeddings_batch, try_except, mbind, M_bind, bind, internal_error, raise.
    destruct (get_collection name None w) as [[c|e] w1]; simpl.
    - rewrite bool_decide_eq_true_2 by done. simpl. eauto.
    - eauto. }
  destruct Hw as [Hw He]. split; [exact He|]. split; [exact Hw|].
  rewrite Hw. apply get_collection_calls.
Qed.

(** Every failure of the batch handler reaches the caller as status 500,
    the two length checks included. *)
Lemma create_embeddings_batch_raises_500 (item : @EmbeddingBatchItem float Any) name w e :
  (create_embeddings_batch item name w).1 = Raise e →
  ∃ detail, e = HTTPException 500 detail.
Proof.
  unfold create_embeddings_batch, try_except, internal_error, raise.
  match goal with |- context [match ?b w with _ => _ end] => destruct (b w) as [[m|e0] w1] end;
    simpl; [discriminate|].
  intros [= <-]. eauto.
Qed.

(** The same holds for [delete_embeddings], its missing-selection check included. *)
Lemma delete_embeddings_raises_500 (delete_item : @DeleteItem Any) name w e :
  (delete_embeddings delete_item name w).1 = Raise e →
  ∃ detail, e = HTTPException 500 detail.
Proof.
  unfold delete_embeddings, try_except, internal_error, raise.
  match goal with |- context [match ?b w with _ => _ end] => destruct (b w) as [[m|e0] w1] end;
    simpl; [discriminate|].
  intros [= <-]. eauto.
Qed.

(** With [ids] and [texts] of one length and no vectors, a non-empty
    [metadatas] is handed to [add] as it is, whatever its length. *)
Lemma create_embeddings_batch_forwards_metadatas
    (item : @EmbeddingBatchItem float Any) name w c w1 m ms :
  get_collection name None w = (Return c, w1) →
  length (batch_ids item) = length (batch_texts item) →
  batch_metadatas item = Some (m :: ms) →
  truthy_list (batch_embeddings item) = false →
  ∃ ok,
    calls (create_embeddings_batch item name w).2 =
    calls w1 ++ [{| call_what := Add c (batch_ids item) None (batch_texts item) (m :: ms);
                    call_returned := ok |}].
Proof.
  intros Hget Hlen Hms Hemb.
  unfold create_embeddings_batch, try_except, mbind, M_bind, bind, internal_error, raise.
  rewrite Hget; simpl.
  rewrite bool_decide_eq_false_2 by (intros ?; contradiction). simpl.
  unfold metadatas_or_empty. rewrite Hms.
  destruct (batch_embeddings item) as [[|v vs]|]; try discriminate;
    unfold invoke; simpl;
    destruct (collection_add _ _ _ _ _ _) as [[[]|e] s2]; simpl; eauto.
Qed.

(** *** [create_embedding] and [query_similar]: which call is made *)

(** C10: an [embedding] given as the empty list is handled exactly as one
    that is not given.  [create_embedding] then is the [add] call made on
    the store without [embeddings] (the store derives the vector from the
    text), and [query_similar] is the [query] call made on the store by
    [query_texts] holding [query_text], not by [query_embeddings]. *)
Theorem empty_embedding_as_absent (i t : string) (m : gmap string Any)
    (qt : string) (n : Z) (wh : option (gmap string Any)) name w :
  let item e := {| item_id := i; item_text := t; item_metadata := m;
                   item_embedding := e |} in
  let query e := {| query_text := qt; n_results := n; query_where := wh;
                    query_embedding := e |} in
  create_embedding (item (Some [])) name w = create_embedding (item None) name w ∧
  query_similar (query (Some [])) name w = query_similar (query None) name w ∧
  match get_collection name None w with
  | (Return c, w1) =>
      create_embedding (item (Some [])) name w =
        match collection_add c [i] None [t] [m] (chroma_client w1) with
        | (Return _, s2) =>
            (Return {| status := "success";
                       message := "已将文本向量化并添加到" +:+ name |},
             after_call w1 s2 (Add c [i] None [t] [m]) true)
        | (Raise e, s2) =>
            (Raise (HTTPException 500 (str e)),
             after_call w1 s2 (Add c [i] None [t] [m]) false)
        end ∧
      query_similar (query (Some [])) name w =
        query_outcome w1
          (Query c None (Some [qt]) n (where_param (query (Some []))))
          (collection_query c None (Some [qt]) n (where_param (query (Some [])))
             (chroma_client w1))
  | (Raise e, w1) =>
      create_embedding (item (Some [])) name w = (Raise (HTTPException 500 (str e)), w1) ∧
      query_similar (query (Some [])) name w = (Raise (HTTPException 500 (str e)), w1)
  end.
Proof.
  intros item query. split; [reflexivity|]. split; [reflexivity|].
  unfold create_embedding, query_similar, query_outcome, try_except, mbind, M_bind,
    bind, internal_error, raise, invoke, lift.
  destruct (get_collection name None w) as [[c|e] w1]; simpl; [|done].
  split.
  - destruct (collection_add _ _ _ _ _ _) as [[[]|e] s2]; reflexivity.
  - destruct (collection_query _ _ _ _ _ _) as [[r|e] s2]; simpl; [|reflexivity].
    destruct (process_results r); reflexivity.
Qed.

(** C6: once the collection is resolved, [query_similar] is one [query]
    call made on the store: by [query_embeddings] holding the one given
    vector, [query_text] unused, when [embedding] is a non-empty list; by
    [query_texts] holding [query_text] otherwise.  In both cases
    [n_results] is passed as given (5 when the body leaves it out), and
    [where] is passed as given when it is a non-empty mapping and is not
    passed at all when it is missing or empty.  What the handler returns is
    made from what that call returns. *)
Theorem query_similar_dispatch (query : @QueryItem float Any) name w :
  match get_collection name None w with
  | (Return c, w1) =>
      match query_embedding query with
      | Some (x :: v) =>
          query_similar query name w =
          query_outcome w1
            (Query c (Some [x :: v]) None (n_results query) (where_param query))
            (collection_query c (Some [x :: v]) None (n_results query)
               (where_param query) (chroma_client w1))
      | _ =>
          query_similar query name w =
          query_outcome w1
            (Query c None (Some [query_text query]) (n_results query)
               (where_param query))
            (collection_query c None (Some [query_text query]) (n_results query)
               (where_param query) (chroma_client w1))
      end
  | (Raise e, w1) =>
      query_similar query name w = (Raise (HTTPException 500 (str e)), w1)
  end ∧
  (∀ d, query_where query = Some d → d ≠ ∅ → where_param query = Some d) ∧
  (query_where query = None ∨ query_where query = Some ∅ → where_param query = None) ∧
  (∀ text, n_results (@QueryItem_defaults float Any text) = 5%Z).
Proof.
  split; [|split; [|split]].
  - unfold query_similar, query_outcome, try_except, mbind, M_bind, bind,
      internal_error, raise, invoke, lift.
    destruct (get_collection name None w) as [[c|e] w1]; simpl; [|reflexivity].
    destruct (query_embedding query) as [[|x v]|]; simpl;
      destruct (collection_query _ _ _ _ _ _) as [[r|e] s2]; simpl;
      try reflexivity; destruct (process_results r); reflexivity.
  - intros d Hd Hne. unfold where_param, truthy_dict. rewrite Hd.
    destruct (size d) eqn:Hsz; [|reflexivity].
    apply map_size_empty_inv in Hsz. contradiction.
  - unfold where_param, truthy_dict. intros [-> | ->]; [reflexivity|].
    rewrite map_size_empty. reflexivity.
  - reflexivity.
Qed.

(** *** [delete_embeddings] *)

(** C7: with a non-empty [ids], [delete_embeddings] makes one [delete] call
    with those ids and no [where], and on its return reports the length of
    [ids]; no other call is made, so no id is looked up first.  With [ids]
    missing or empty and a non-empty [where], it makes one [delete] call
    with that [where] and reports success without a number. *)
Theorem delete_embeddings_selection (delete_item : @DeleteItem Any) name w :
  match get_collection name None w with
  | (Raise e, w1) =>
      delete_embeddings delete_item name w = (Raise (HTTPException 500 (str e)), w1)
  | (Return c, w1) =>
      match delete_ids delete_item with
      | Some (i :: ids) =>
          delete_embeddings delete_item name w =
          match collection_delete c (Some (i :: ids)) None (chroma_client w1) with
          | (Return _, s2) =>
              (Return {| status := "success";
                         message := "已从" +:+ name +:+ "中删除"
                                    +:+ pretty (length (i :: ids)) +:+ "个向量" |},
               after_call w1 s2 (Delete c (Some (i :: ids)) None) true)
          | (Raise e, s2) =>
              (Raise (HTTPException 500 (str e)),
               after_call w1 s2 (Delete c (Some (i :: ids)) None) false)
          end
      | _ =>
          truthy_dict (delete_where delete_item) = true →
          delete_embeddings delete_item name w =
          match collection_delete c None (delete_where delete_item) (chroma_client w1) with
          | (Return _, s2) =>
              (Return {| status := "success";
                         message := "已从" +:+ name +:+ "中删除符合条件的向量" |},
               after_call w1 s2 (Delete c None (delete_where delete_item)) true)
          | (Raise e, s2) =>
              (Raise (HTTPException 500 (str e)),
               after_call w1 s2 (Delete c None (delete_where delete_item)) false)
          end
      end
  end.
Proof.
  unfold delete_embeddings, try_except, mbind, M_bind, bind, internal_error, raise, invoke.
  destruct (get_collection name None w) as [[c|e] w1]; simpl; [|reflexivity].
  destruct (delete_ids delete_item) as [[|i ids]|]; simpl.
  - intros ->. destruct (collection_delete _ _ _ _) as [[[]|e] s2]; reflexivity.
  - destruct (collection_delete _ _ _ _) as [[[]|e] s2]; reflexivity.
  - intros ->. destruct (collection_delete _ _ _ _) as [[[]|e] s2]; reflexivity.
Qed.

(** *** [query_similar]: the reshaping of the answer *)

Lemma column_first_row {A : Type} (field : option (list (list A))) (i : nat) :
  column field i =
  match first_row field with
  | Some row =>
      match row !! i with
      | Some x => Return (Some x)
      | None => Raise IndexError
      end
  | None => Return None
  end.
Proof.
  destruct field as [[|[|x row] rows]|]; try reflexivity.
  unfold column, first_row, index. destruct ((x :: row) !! i); reflexivity.
Qed.

(** A field that runs parallel to the ids has an entry at every index of an id. *)
Lemma parallel_lookup {A : Type} (field : option (list (list A))) ids0 row i :
  parallel field ids0 → first_row field = Some row → i < length ids0 →
  ∃ x, row !! i = Some x.
Proof.
  unfold parallel. intros Hpar Hrow Hi. rewrite Hrow in Hpar.
  apply lookup_lt_is_Some_2. lia.
Qed.

(** Case on whether a field of the answer is there; when it is, name its
    entry at index [i]. *)
Ltac field_entry i Hi :=
  match goal with
  | Hp : parallel ?field _ |- context [first_row ?field] =>
      let E := fresh "E" in
      let Hx := fresh "Hx" in
      destruct (first_row field) as [?|] eqn:E;
      [destruct (parallel_lookup _ _ _ i Hp E Hi) as [? Hx]; rewrite Hx|];
      clear Hp
  end.

(** On an index-parallel answer every turn of the loop builds its item. *)
Lemma process_item_matches (results : @QueryResult float Any) ids0 rest i :
  res_ids results = ids0 :: rest → index_parallel results → i < length ids0 →
  ∃ item, process_item results ids0 i = Return item ∧ item_matches results i item.
Proof.
  intros Hids Hpar Hi. unfold index_parallel in Hpar. rewrite Hids in Hpar.
  destruct Hpar as (Hdoc & Hmeta & Hdist).
  destruct (lookup_lt_is_Some_2 ids0 i Hi) as [id_ Hid].
  unfold process_item, index, item_matches, returned_ids.
  rewrite Hid, Hids, !column_first_row. simpl.
  repeat field_entry i Hi;
    (eexists; split; [reflexivity|]); simpl; auto.
Qed.

(** The loop appends one item per index, in order, when no turn raises. *)
Lemma for_append_Forall2 {A : Type} (body : nat → result A) (P : nat → A → Prop)
    (range : list nat) (acc : list A) :
  (∀ i, i ∈ range → ∃ x, body i = Return x ∧ P i x) →
  ∃ items, for_append body range acc = Return (acc ++ items) ∧ Forall2 P range items.
Proof.
  revert acc. induction range as [|i range IH]; intros acc Hbody; simpl.
  - exists []. rewrite app_nil_r. split; [reflexivity|constructor].
  - destruct (Hbody i) as (x & -> & Hx); [left|].
    destruct (IH (acc ++ [x])) as (items & -> & Hitems).
    { intros j Hj. apply Hbody. by right. }
    exists (x :: items). rewrite <- app_assoc. split; [reflexivity|].
    by constructor.
Qed.

(** The reshaping returns, on every index-parallel answer. *)
Lemma process_results_matches (results : @QueryResult float Any) :
  index_parallel results →
  ∃ items,
    process_results results = Return items ∧
    length items = length (returned_ids results) ∧
    ∀ i item, items !! i = Some item → item_matches results i item.
Proof.
  intros Hpar. unfold process_results, index, returned_ids.
  destruct (res_ids results) as [|ids0 rest] eqn:Hids.
  { unfold index_parallel in Hpar. by rewrite Hids in Hpar. }
  simpl.
  destruct (for_append_Forall2 (process_item results ids0) (item_matches results)
              (seq 0 (length ids0)) []) as (items & -> & Hall).
  { intros i Hi. apply elem_of_seq in Hi.
    apply (process_item_matches results ids0 rest); [done..|lia]. }
  exists items. split; [reflexivity|]. split.
  - apply Forall2_length in Hall. rewrite length_seq in Hall. done.
  - intros i item Hitem.
    destruct (Forall2_lookup_r _ _ _ _ _ Hall Hitem) as (j & Hj & Hm).
    apply lookup_seq in Hj as [-> _]. exact Hm.
Qed.

(** C5: when the collection is resolved and the store answers the query
    with an index-parallel answer, [query_similar] returns with status
    "success", one result item per returned id and in the order of the ids,
    each item carrying the parallel entries of documents, metadatas and
    distances ([None], the empty mapping and [None] for a field that is not
    there), and [count] is the number of items. *)
Theorem query_similar_reshapes (query : @QueryItem float Any) name w c w1 results s2 :
  get_collection name None w = (Return c, w1) →
  store_query query c (chroma_client w1) = (Return results, s2) →
  index_parallel results →
  ∃ items,
    (query_similar query name w).1 =
      Return {| response_status := "success";
                response_results := items;
                response_count := length items |} ∧
    result_id <$> items = returned_ids results ∧
    ∀ i item, items !! i = Some item → item_matches results i item.
Proof.
  intros Hget Hquery Hpar.
  destruct (process_results_matches results Hpar) as (items & Hitems & Hlen & Hall).
  exists items. split; [|split; [|exact Hall]].
  - unfold query_similar, try_except, mbind, M_bind, bind, internal_error, raise,
      invoke, lift.
    rewrite Hget; simpl. unfold store_query in Hquery.
    destruct (query_embedding query) as [[|x v]|]; simpl; rewrite Hquery; simpl;
      rewrite Hitems; reflexivity.
  - apply list_eq. intros i. rewrite list_lookup_fmap.
    destruct (items !! i) as [item|] eqn:Hi; simpl.
    + destruct (Hall i item Hi) as [Hid _]. by rewrite Hid.
    + symmetry. apply lookup_ge_None_2. rewrite <- Hlen.
      by apply lookup_ge_None_1.
Qed.

End Properties.

(** ** Runs on the in-memory client *)

Section Runs.

#[local] Existing Instance Examples.memory.

Local Open Scope list_scope.

(** C1, as stated, fails: on a store without the collection "default", a
    batch with one id and no text makes [create_embeddings_batch] create the
    collection before it fails, so the store and the call history change. *)
Lemma create_embeddings_batch_mismatch_creates_collection :
  length (batch_ids Examples.ids_without_texts)
    ≠ length (batch_texts Examples.ids_without_texts) ∧
  chroma_client (InMemory.fresh ∅) !! "default" = None ∧
  chroma_client
    (create_embeddings_batch Examples.ids_without_texts "default" (InMemory.fresh ∅)).2
    !! "default" = Some [] ∧
  calls (create_embeddings_batch Examples.ids_without_texts "default" (InMemory.fresh ∅)).2 =
    [{| call_what := GetCollection "default" DefaultEmbeddingFunction;
        call_returned := false |};
     {| call_what := CreateCollection "default" DefaultEmbeddingFunction;
        call_returned := true |}].
Proof.
  split; [simpl; discriminate|]. split; [reflexivity|].
  split; vm_compute; reflexivity.
Qed.

(** The batch of the run above: its ids and texts differ in length, and the
    state it leaves is the one left by resolving "default". *)
Lemma create_embeddings_batch_length_mismatch_witness :
  length (batch_ids Examples.ids_without_texts)
    ≠ length (batch_texts Examples.ids_without_texts) ∧
  (create_embeddings_batch Examples.ids_without_texts "default" (InMemory.fresh ∅)).2 =
  (get_collection "default" None (InMemory.fresh ∅)).2.
Proof.
  assert (H : length (batch_ids Examples.ids_without_texts)
              ≠ length (batch_texts Examples.ids_without_texts)).
  { simpl. discriminate. }
  split; [exact H|].
  exact (proj1 (proj2 (create_embeddings_batch_length_mismatch
                         Examples.ids_without_texts "default" (InMemory.fresh ∅) H))).
Defined.

(** C2, on the code: each of the three validation failures (no text for an
    id, one vector for two ids, a delete request with neither [ids] nor
    [where]) raises [HTTPException] with status 400 inside the handler's
    [try], is caught by its [except Exception], and reaches the caller with
    status 500. *)
Theorem validation_errors_reported_as_500 :
  (create_embeddings_batch Examples.ids_without_texts "default" (InMemory.fresh ∅)).1 =
    Raise (HTTPException 500 "400: ids和texts的长度必须一致") ∧
  (create_embeddings_batch Examples.short_embeddings "default" (InMemory.fresh ∅)).1 =
    Raise (HTTPException 500 "400: embeddings和ids的长度必须一致") ∧
  (delete_embeddings Examples.no_selection "default" (InMemory.fresh ∅)).1 =
    Raise (HTTPException 500 "400: 必须提供ids或where参数").
Proof. repeat split; vm_compute; reflexivity. Qed.

(** C3, on the code: a batch of two ids and texts with a single metadata
    mapping passes the handler's checks; the lists go to [add] as they are,
    and the failure that reaches the caller is the store's, with status 500. *)
Theorem metadatas_length_not_checked :
  (length <$> batch_metadatas Examples.short_metadatas) = Some 1 ∧
  length (batch_ids Examples.short_metadatas) = 2 ∧
  create_embeddings_batch Examples.short_metadatas "default" (InMemory.fresh ∅) =
  (Raise (HTTPException 500 "Number of metadatas 1 must match number of ids 2"),
   {| chroma_client := {["default" := []]};
      collections := {["default" := Examples.default_handle]};
      calls :=
        [{| call_what := GetCollection "default" DefaultEmbeddingFunction;
            call_returned := false |};
         {| call_what := CreateCollection "default" DefaultEmbeddingFunction;
            call_returned := true |};
         {| call_what := Add Examples.default_handle ["a"; "b"] None ["x"; "y"]
                           [{["k" := InMemory.SStr "v"]}];
            call_returned := false |}] |}).
Proof. repeat split; vm_compute; reflexivity. Qed.

(** A cached "default" is returned as it is, also when another embedding
    function is asked for. *)
Lemma get_collection_idempotent_witness :
  collections Examples.warm !! "default" = Some Examples.default_handle ∧
  get_collection "default" (Some OpenAIEmbeddingFunction) Examples.warm =
  (Return Examples.default_handle, Examples.warm).
Proof.
  assert (H : collections Examples.warm !! "default" = Some Examples.default_handle).
  { vm_compute. reflexivity. }
  split; [exact H|].
  exact (proj1 (get_collection_idempotent "default" None (Some OpenAIEmbeddingFunction)
                  Examples.warm) Examples.default_handle H).
Defined.

(** A text query on the cached collection, answered with two matches. *)
Lemma query_similar_reshapes_witness :
  index_parallel Examples.answer ∧
  ∃ items,
    (query_similar (QueryItem_defaults "hello") "default" Examples.warm).1 =
      Return {| response_status := "success";
                response_results := items;
                response_count := length items |} ∧
    result_id <$> items = ["a"; "b"].
Proof.
  assert (Hpar : index_parallel Examples.answer).
  { vm_compute. auto. }
  assert (Hget : get_collection "default" None Examples.warm =
                 (Return Examples.default_handle, Examples.warm)).
  { vm_compute. reflexivity. }
  assert (Hquery : store_query (QueryItem_defaults "hello") Examples.default_handle
                     (chroma_client Examples.warm) =
                   (Return Examples.answer, chroma_client Examples.warm)).
  { vm_compute. reflexivity. }
  split; [exact Hpar|].
  destruct (query_similar_reshapes (QueryItem_defaults "hello") "default" Examples.warm
              Examples.default_handle Examples.warm Examples.answer
              (chroma_client Examples.warm) Hget Hquery Hpar)
    as (items & Hresponse & Hids & _).
  exists items. split; [exact Hresponse|exact Hids].
Defined.

(** A non-empty [where] is passed on as given. *)
Lemma query_similar_dispatch_witness :
  query_where Examples.filtered_query = Some {["k" := InMemory.SStr "v"]} ∧
  ({["k" := InMemory.SStr "v"]} : gmap string InMemory.scalar) ≠ ∅ ∧
  where_param Examples.filtered_query = Some {["k" := InMemory.SStr "v"]}.
Proof.
  assert (H : query_where Examples.filtered_query = Some {["k" := InMemory.SStr "v"]}).
  { reflexivity. }
  assert (Hne : ({["k" := InMemory.SStr "v"]} : gmap string InMemory.scalar) ≠ ∅).
  { intros E. apply (f_equal (fun m => m !! "k")) in E. vm_compute in E. discriminate. }
  split; [exact H|]. split; [exact Hne|].
  exact (proj1 (proj2 (query_similar_dispatch Examples.filtered_query "default"
                         Examples.warm)) _ H Hne).
Defined.

(** A delete by [where] alone. *)
Lemma delete_embeddings_selection_witness :
  truthy_dict (delete_where Examples.by_where) = true ∧
  delete_embeddings Examples.by_where "default" Examples.warm =
  (Return {| status := "success"; message := "已从default中删除符合条件的向量" |},
   after_call Examples.warm {["default" := []]}
     (Delete Examples.default_handle None (delete_where Examples.by_where)) true).
Proof.
  assert (H : truthy_dict (delete_where Examples.by_where) = true).
  { vm_compute. reflexivity. }
  split; [exact H|].
  exact (delete_embeddings_selection Examples.by_where "default" Examples.warm H).
Defined.

(** Dropping "default" leaves the entry of another name alone. *)
Lemma delete_collection_cache_witness :
  "other" ≠ "default" ∧
  collections (delete_collection "default" Examples.warm).2 !! "other" =
  collections Examples.warm !! "other".
Proof.
  assert (H : "other" ≠ "default").
  { discriminate. }
  split; [exact H|].
  exact (proj2 (delete_collection_cache "default" Examples.warm) "other" H).
Defined.

End Runs.

(** ** Further properties of the handlers, for every chromadb client *)

Section Handlers.

Context {float Any Store Collection : Type}.
Context {client : @ChromaClient float Any Store Collection}.

Local Open Scope nat_scope.
Local Open Scope list_scope.

Implicit Types (w : @world float Any Store Collection) (name : string).
Implicit Types (ef : option EmbeddingFunction) (c : Collection).
Implicit Types (r : @request float Any) (rs : list (@request float Any)).

(** *** What a resolve does to the cache and to the count of creations *)

Lemma get_collection_hit name ef w c :
  collections w !! name = Some c → get_collection name ef w = (Return c, w).
Proof. intros Hc. rewrite get_collection_unfold, Hc. reflexivity. Qed.

Lemma get_collection_other name ef w n :
  n ≠ name →
  collections (get_collection name ef w).2 !! n = collections w !! n ∧
  creations n (calls (get_collection name ef w).2) = creations n (calls w).
Proof.
  intros Hn. rewrite get_collection_unfold.
  destruct (collections w !! name) as [c0|]; simpl; [done|].
  destruct (client_get_collection _ _ _) as [[c1|e] s1]; simpl.
  { rewrite lookup_insert_ne by done. rewrite creations_app. cbn. split; [done|lia]. }
  destruct (client_create_collection _ _ _) as [[c1|e'] s2]; simpl;
    rewrite ?lookup_insert_ne by done; rewrite !creations_app; cbn;
    rewrite ?bool_decide_eq_false_2 by done; cbn; (split; [done|lia]).
Qed.

Lemma get_collection_same name ef w :
  creations name (calls (get_collection name ef w).2) = creations name (calls w) ∨
  (creations name (calls (get_collection name ef w).2) = creations name (calls w) + 1 ∧
   is_Some (collections (get_collection name ef w).2 !! name)).
Proof.
  rewrite get_collection_unfold.
  destruct (collections w !! name) as [c0|]; simpl; [by left|].
  destruct (client_get_collection _ _ _) as [[c1|e] s1]; simpl.
  { left. rewrite creations_app. cbn. lia. }
  destruct (client_create_collection _ _ _) as [[c1|e'] s2]; simpl;
    rewrite !creations_app; cbn; rewrite ?bool_decide_eq_true_2 by done; cbn.
  - right. split; [lia|]. rewrite lookup_insert_eq. eauto.
  - left. lia.
Qed.

Lemma get_collection_keeps name ef w n c :
  collections w !! n = Some c → collections (get_collection name ef w).2 !! n = Some c.
Proof.
  intros Hc. destruct (decide (n = name)) as [->|Hn].
  - by rewrite (get_collection_hit _ _ _ _ Hc).
  - by rewrite (proj1 (get_collection_other name ef w n Hn)).
Qed.

Lemma creations_on_records n (l extra : list (@call float Any Collection)) :
  Forall on_records extra → creations n (l ++ extra) = creations n l.
Proof.
  intros Hextra. rewrite creations_app.
  assert (creations n extra = 0) as ->; [|lia].
  induction Hextra as [|x extra Hx _ IH]; [reflexivity|].
  assert (is_creation n x = false) as Hx'.
  { unfold is_creation, on_records in *. by destruct (call_what x). }
  unfold creations in *. simpl. rewrite Hx'. exact IH.
Qed.

(** X1: [get_collection] raises only on a cache miss on which both the open
    and the create raise; the exception that propagates is the create's (the
    open's is dropped), both calls are on record, and [collections] is as it
    was. *)
Theorem get_collection_raises name ef w e w1 :
  get_collection name ef w = (Raise e, w1) →
  collections w !! name = None ∧
  collections w1 = collections w ∧
  ∃ e0 s1,
    client_get_collection name (or_default_ef ef) (chroma_client w) = (Raise e0, s1) ∧
    client_create_collection name (or_default_ef ef) s1 = (Raise e, chroma_client w1) ∧
    calls w1 =
      calls w ++ [{| call_what := GetCollection name (or_default_ef ef);
                     call_returned := false |};
                  {| call_what := CreateCollection name (or_default_ef ef);
                     call_returned := false |}].
Proof.
  rewrite get_collection_unfold.
  destruct (collections w !! name) as [c0|]; [discriminate|].
  destruct (client_get_collection _ _ _) as [[c1|e0] s1]; [discriminate|]. simpl.
  destruct (client_create_collection _ _ _) as [[c1|e'] s2] eqn:Hcreate; [discriminate|].
  intros [= <- <-]. simpl. split; [done|]. split; [done|].
  exists e0, s1. rewrite <- app_assoc. auto.
Qed.

(** *** The four record handlers after the resolve *)

Lemma create_embedding_after_resolve (item : @EmbeddingItem float Any) name w :
  after_resolve name w (create_embedding item name w).2.
Proof.
  unfold after_resolve, create_embedding, try_except, mbind, M_bind, bind,
    internal_error, raise, invoke.
  destruct (get_collection name None w) as [[c|e] w1]; simpl.
  - destruct (item_embedding item) as [[|x v]|]; simpl;
      destruct (collection_add _ _ _ _ _ _) as [[[]|e] s2]; simpl;
      (split; [reflexivity|]); eexists; (split; [reflexivity|]);
      (split; [simpl; lia|]); repeat constructor.
  - split; [reflexivity|]. exists []. rewrite app_nil_r. repeat constructor.
Qed.

Lemma create_embeddings_batch_after_resolve (item : @EmbeddingBatchItem float Any) name w :
  after_resolve name w (create_embeddings_batch item name w).2.
Proof.
  unfold after_resolve, create_embeddings_batch, try_except, mbind, M_bind, bind,
    internal_error, raise, invoke.
  destruct (get_collection name None w) as [[c|e] w1]; simpl.
  - case_bool_decide; simpl.
    { split; [reflexivity|]. exists []. rewrite app_nil_r. repeat constructor. }
    destruct (batch_embeddings item) as [[|x v]|]; simpl;
      try case_bool_decide; simpl;
      try (split; [reflexivity|]; exists []; rewrite app_nil_r; by repeat constructor);
      destruct (collection_add _ _ _ _ _ _) as [[[]|e] s2]; simpl;
      (split; [reflexivity|]); eexists; (split; [reflexivity|]);
      (split; [simpl; lia|]); repeat constructor.
  - split; [reflexivity|]. exists []. rewrite app_nil_r. repeat constructor.
Qed.

Lemma query_similar_after_resolve (query : @QueryItem float Any) name w :
  after_resolve name w (query_similar query name w).2.
Proof.
  unfold after_resolve, query_similar, try_except, mbind, M_bind, bind,
    internal_error, raise, invoke, lift.
  destruct (get_collection name None w) as [[c|e] w1]; simpl.
  - destruct (query_embedding query) as [[|x v]|]; simpl;
      destruct (collection_query _ _ _ _ _ _) as [[res|e] s2]; simpl;
      try destruct (process_results res); simpl;
      (split; [reflexivity|]); eexists; (split; [reflexivity|]);
      (split; [simpl; lia|]); repeat constructor.
  - split; [reflexivity|]. exists []. rewrite app_nil_r. repeat constructor.
Qed.

Lemma delete_embeddings_after_resolve (delete_item : @DeleteItem Any) name w :
  after_resolve name w (delete_embeddings delete_item name w).2.
Proof.
  unfold after_resolve, delete_embeddings, try_except, mbind, M_bind, bind,
    internal_error, raise, invoke.
  destruct (get_collection name None w) as [[c|e] w1]; simpl.
  - destruct (delete_ids delete_item) as [[|i ids]|]; simpl;
      try destruct (truthy_dict (delete_where delete_item)); simpl;
      try (split; [reflexivity|]; exists []; rewrite app_nil_r; by repeat constructor);
      destruct (collection_delete _ _ _ _) as [[[]|e] s2]; simpl;
      (split; [reflexivity|]); eexists; (split; [reflexivity|]);
      (split; [simpl; lia|]); repeat constructor.
  - split; [reflexivity|]. exists []. rewrite app_nil_r. repeat constructor.
Qed.


(** *** Requests and the cache *)

Lemma respond_state {A : Type} (wrap : A → @body float Any) (handler : M A) w :
  (respond wrap handler w).2 = (handler w).2.
Proof. unfold respond, bind, ret. by destruct (handler w) as [[a|e] w1]. Qed.

Lemma respond_raises {A : Type} (wrap : A → @body float Any) (handler : M A) w e :
  (respond wrap handler w).1 = Raise e → (handler w).1 = Raise e.
Proof.
  unfold respond, bind, ret. destruct (handler w) as [[a|e0] w1]; simpl.
  - discriminate.
  - intros [= ->]. reflexivity.
Qed.

Lemma list_collections_effect w :
  collections (list_collections w).2 = collections w ∧
  ∃ ok, calls (list_collections w).2 =
        calls w ++ [{| call_what := ListCollections; call_returned := ok |}].
Proof.
  unfold list_collections, mbind, M_bind, bind, invoke.
  destruct (client_list_collections (chroma_client w)) as [[cs|e] s1]; simpl; eauto.
Qed.

Lemma delete_collection_effect name w :
  (∀ n, n ≠ name →
        collections (delete_collection name w).2 !! n = collections w !! n) ∧
  ∃ ok, calls (delete_collection name w).2 =
        calls w ++ [{| call_what := DeleteCollection name; call_returned := ok |}] ∧
        (ok = true → collections (delete_collection name w).2 !! name = None).
Proof.
  unfold delete_collection, try_except, mbind, M_bind, bind, invoke, cache_contains,
    internal_error, raise.
  destruct (client_delete_collection name (chroma_client w)) as [[[]|e] s1]; simpl.
  - destruct (collections w !! name) as [c|] eqn:Hc; simpl.
    + unfold cache_del; simpl. rewrite Hc; simpl. split.
      * intros n Hn. by rewrite lookup_delete_ne.
      * eexists; split; [reflexivity|]. intros _. apply lookup_delete_eq.
    + split; [done|]. eexists; split; [reflexivity|done].
  - split; [done|]. eexists; split; [reflexivity|done].
Qed.

(** What one request does to the entry of [name] and to the number of
    collections called [name] that were created. *)
Lemma serve_step name r w :
  ¬ drops name r →
  (∀ c, collections w !! name = Some c →
        collections (serve r w).2 !! name = Some c ∧
        creations name (calls (serve r w).2) = creations name (calls w)) ∧
  (creations name (calls (serve r w).2) = creations name (calls w) ∨
   (creations name (calls (serve r w).2) = creations name (calls w) + 1 ∧
    is_Some (collections (serve r w).2 !! name))).
Proof.
  intros Hdrop.
  assert (Hrecords : ∀ n w', after_resolve n w w' →
    (∀ c, collections w !! name = Some c →
          collections w' !! name = Some c ∧
          creations name (calls w') = creations name (calls w)) ∧
    (creations name (calls w') = creations name (calls w) ∨
     (creations name (calls w') = creations name (calls w) + 1 ∧
      is_Some (collections w' !! name)))).
  { intros n w' (Hcache & extra & Hcalls & _ & Hextra).
    rewrite Hcalls, Hcache, creations_on_records by done.
    destruct (decide (name = n)) as [->|Hn].
    - split; [|apply get_collection_same].
      intros c Hc. by rewrite (get_collection_hit _ _ _ _ Hc).
    - destruct (get_collection_other n None w name Hn) as [Hlook Hcount].
      rewrite Hlook, Hcount. split; [done|by left]. }
  destruct r as [| | |item n|item n|query n|delete_item n|n]; simpl;
    rewrite ?respond_state.
  - split; [done|by left].
  - split; [done|by left].
  - destruct (list_collections_effect w) as (Hcache & ok & Hcalls).
    rewrite Hcache, Hcalls, creations_app. cbn. split; [|left; lia].
    intros c Hc. split; [done|lia].
  - apply (Hrecords (or_default_name n)), create_embedding_after_resolve.
  - apply (Hrecords (or_default_name n)), create_embeddings_batch_after_resolve.
  - apply (Hrecords (or_default_name n)), query_similar_after_resolve.
  - apply (Hrecords (or_default_name n)), delete_embeddings_after_resolve.
  - simpl in Hdrop.
    destruct (delete_collection_effect n w) as (Hframe & ok & Hcalls & _).
    rewrite Hframe, Hcalls, creations_app by congruence. cbn.
    split; [|left; lia]. intros c Hc. split; [done|lia].
Qed.

(** X3: a request leaves the cache entry of every collection other than the
    one it names as it was. *)
Theorem serve_cache_frame r w other :
  target r ≠ Some other →
  collections (serve r w).2 !! other = collections w !! other.
Proof.
  intros Htarget.
  assert (Hrecords : ∀ n w', n ≠ other → after_resolve n w w' →
                             collections w' !! other = collections w !! other).
  { intros n w' Hn (Hcache & _). rewrite Hcache.
    apply get_collection_other. congruence. }
  destruct r as [| | |item n|item n|query n|delete_item n|n]; simpl in *;
    rewrite ?respond_state; try done.
  - by rewrite (proj1 (list_collections_effect w)).
  - apply (Hrecords (or_default_name n)); [congruence|].
    apply create_embedding_after_resolve.
  - apply (Hrecords (or_default_name n)); [congruence|].
    apply create_embeddings_batch_after_resolve.
  - apply (Hrecords (or_default_name n)); [congruence|].
    apply query_similar_after_resolve.
  - apply (Hrecords (or_default_name n)); [congruence|].
    apply delete_embeddings_after_resolve.
  - apply (proj1 (delete_collection_effect n w)). congruence.
Qed.

(** X4: once [name] has an entry in [collections], that same collection
    object stays cached under [name] through every sequence of requests
    that does not drop [name]: no handler replaces an entry, and only the
    drop route removes one. *)
Theorem serve_all_keeps_cached name c rs w :
  Forall (fun r => ¬ drops name r) rs →
  collections w !! name = Some c →
  collections (serve_all rs w) !! name = Some c.
Proof.
  intros Hrs. revert w. induction Hrs as [|r rs Hr _ IH]; intros w Hc; simpl; [done|].
  apply IH. by apply (serve_step name r w Hr).
Qed.


(** *** Which embedding function the handlers use *)

Lemma get_collection_default_ef name w :
  ∃ new, calls (get_collection name None w).2 = calls w ++ new ∧
         Forall with_default_ef new.
Proof.
  rewrite get_collection_unfold.
  destruct (collections w !! name) as [c0|]; simpl.
  { exists []. by rewrite app_nil_r. }
  destruct (client_get_collection _ _ _) as [[c1|e] s1]; simpl.
  { eexists; split; [reflexivity|]. by repeat constructor. }
  destruct (client_create_collection _ _ _) as [[c1|e'] s2]; simpl;
    rewrite <- app_assoc; (eexists; split; [reflexivity|]); by repeat constructor.
Qed.

Lemma on_records_default_ef (extra : list (@call float Any Collection)) :
  Forall on_records extra → Forall with_default_ef extra.
Proof.
  intros Hextra. eapply Forall_impl; [exact Hextra|].
  intros x. unfold on_records, with_default_ef, given_embedding_function.
  by destruct (call_what x).
Qed.

Lemma serve_default_ef r w :
  ∃ new, calls (serve r w).2 = calls w ++ new ∧ Forall with_default_ef new.
Proof.
  assert (Hrecords : ∀ n w', after_resolve n w w' →
            ∃ new, calls w' = calls w ++ new ∧ Forall with_default_ef new).
  { intros n w' (_ & extra & Hcalls & _ & Hextra).
    destruct (get_collection_default_ef n w) as (new & Hnew & Hdef).
    exists (new ++ extra). rewrite Hcalls, Hnew, app_assoc. split; [done|].
    apply Forall_app. split; [done|by apply on_records_default_ef]. }
  destruct r as [| | |item n|item n|query n|delete_item n|n]; simpl;
    rewrite ?respond_state.
  - exists []. by rewrite app_nil_r.
  - exists []. by rewrite app_nil_r.
  - destruct (list_collections_effect w) as (_ & ok & Hcalls).
    eexists; split; [exact Hcalls|]. by repeat constructor.
  - apply (Hrecords (or_default_name n)), create_embedding_after_resolve.
  - apply (Hrecords (or_default_name n)), create_embeddings_batch_after_resolve.
  - apply (Hrecords (or_default_name n)), query_similar_after_resolve.
  - apply (Hrecords (or_default_name n)), delete_embeddings_after_resolve.
  - destruct (delete_collection_effect n w) as (_ & ok & Hcalls & _).
    eexists; split; [exact Hcalls|]. by repeat constructor.
Qed.


(** *** How failures reach the caller *)

Lemma try_except_internal_error {A : Type} (handler_body : M A) w e :
  (try_except handler_body internal_error w).1 = Raise e →
  ∃ detail, e = HTTPException 500 detail.
Proof.
  unfold try_except, internal_error, raise.
  destruct (handler_body w) as [[a|e0] w1]; simpl; [discriminate|].
  intros [= <-]. eauto.
Qed.

(** X7: GET / and GET /health never fail and leave the state as it is:
    they return their fixed bodies.  On every route but GET /collections, a
    request that fails fails with [HTTPException] of status 500. *)
Theorem serve_failure_is_500 r w :
  serve GET_root w =
    (Return (MessageBody {| status := "ok";
                            message := "NovelAssist向量数据库服务运行中" |}), w) ∧
  serve GET_health w = (Return (HealthBody "ok"), w) ∧
  (∀ e, (serve r w).1 = Raise e →
        r ≠ GET_collections →
        ∃ detail, e = HTTPException 500 detail).
Proof.
  split; [reflexivity|]. split; [reflexivity|].
  intros e Hraise Hroute.
  destruct r as [| | |item n|item n|query n|delete_item n|n]; simpl in Hraise;
    try discriminate; try contradiction;
    apply respond_raises in Hraise;
    exact (try_except_internal_error _ _ _ Hraise).
Qed.

(** X8: [list_collections] makes one call, [list_collections] on the client,
    and returns the names of the collections the store lists, in the
    store's order, without reading or changing [collections]; when the
    store raises, that same exception leaves the handler, which has no
    [try] of its own. *)
Theorem list_collections_passthrough w :
  match client_list_collections (chroma_client w) with
  | (Return cs, s1) =>
      list_collections w =
      (Return (collection_name_of <$> cs), after_call w s1 ListCollections true)
  | (Raise e, s1) =>
      list_collections w = (Raise e, after_call w s1 ListCollections false)
  end.
Proof.
  unfold list_collections, mbind, M_bind, bind, invoke.
  destruct (client_list_collections (chroma_client w)) as [[cs|e] s1]; reflexivity.
Qed.

(** X9: when the collection cannot be resolved, each of the four record
    handlers fails with status 500 and the [str()] of the exception that
    [get_collection] raised as detail, and leaves the state as the failed
    resolve left it: no call is made on any collection object. *)
Theorem resolve_failure_surfaces (item : @EmbeddingItem float Any)
    (batch : @EmbeddingBatchItem float Any) (query : @QueryItem float Any)
    (delete_item : @DeleteItem Any) name w e w1 :
  get_collection name None w = (Raise e, w1) →
  create_embedding item name w = (Raise (HTTPException 500 (str e)), w1) ∧
  create_embeddings_batch batch name w = (Raise (HTTPException 500 (str e)), w1) ∧
  query_similar query name w = (Raise (HTTPException 500 (str e)), w1) ∧
  delete_embeddings delete_item name w = (Raise (HTTPException 500 (str e)), w1).
Proof.
  intros Hget.
  unfold create_embedding, create_embeddings_batch, query_similar, delete_embeddings,
    try_except, mbind, M_bind, bind, internal_error, raise.
  rewrite Hget. auto.
Qed.

(** X10: after [delete_collection] has returned for [name], [name] has no
    entry in [collections], so the next resolve of [name] is not answered
    from the cache: its first call asks the store to open the collection. *)
Theorem drop_then_resolve name ef w msg w1 :
  delete_collection name w = (Return msg, w1) →
  collections w1 !! name = None ∧
  ∃ ok rest,
    calls (get_collection name ef w1).2 =
    calls w1 ++ {| call_what := GetCollection name (or_default_ef ef);
                   call_returned := ok |} :: rest.
Proof.
  intros Hdrop.
  assert (Hnone : collections w1 !! name = None).
  { revert Hdrop.
    unfold delete_collection, try_except, mbind, M_bind, bind, invoke, cache_contains,
      internal_error, raise.
    destruct (client_delete_collection name (chroma_client w)) as [[[]|e] s1]; simpl;
      [|discriminate].
    destruct (collections w !! name) as [c|] eqn:Hc; simpl.
    - unfold cache_del; simpl. rewrite Hc; simpl. intros [= _ <-]. simpl.
      apply lookup_delete_eq.
    - intros [= _ <-]. exact Hc. }
  split; [exact Hnone|].
  rewrite get_collection_unfold, Hnone.
  destruct (client_get_collection _ _ _) as [[c1|e] s1]; simpl.
  { by exists true, []. }
  destruct (client_create_collection _ _ _) as [[c1|e'] s2]; simpl;
    rewrite <- app_assoc; by eexists false, [_].
Qed.

End Handlers.

(** ** Ingestion, deletion and the reshaping of answers *)

Section Records.

Context {float Any Store Collection : Type}.
Context {client : @ChromaClient float Any Store Collection}.

Local Open Scope nat_scope.
Local Open Scope list_scope.

Implicit Types (w : @world float Any Store Collection) (name : string).
Implicit Types (c : Collection).

(** X11: once the collection is resolved, [create_embedding] makes one [add]
    call for the one record: the id, the text and the metadata of the item,
    each as a list of one, and the given vector as a list of one when it is
    a non-empty list.  When [add] returns the handler reports success and
    names the collection; when [add] raises, the handler fails with status
    500 and the [str()] of that exception as detail.  Either way the
    collection stays cached. *)
Theorem create_embedding_outcome (item : @EmbeddingItem float Any) name w c w1 :
  get_collection name None w = (Return c, w1) →
  create_embedding item name w =
  match collection_add c [item_id item] (embeddings_of item) [item_text item]
          [item_metadata item] (chroma_client w1) with
  | (Return _, s2) =>
      (Return {| status := "success";
                 message := "已将文本向量化并添加到" +:+ name |},
       after_call w1 s2
         (Add c [item_id item] (embeddings_of item) [item_text item]
            [item_metadata item]) true)
  | (Raise e, s2) =>
      (Raise (HTTPException 500 (str e)),
       after_call w1 s2
         (Add c [item_id item] (embeddings_of item) [item_text item]
            [item_metadata item]) false)
  end.
Proof.
  intros Hget.
  unfold create_embedding, try_except, mbind, M_bind, bind, internal_error, raise,
    invoke, embeddings_of.
  rewrite Hget; simpl.
  destruct (item_embedding item) as [[|x v]|]; simpl;
    destruct (collection_add _ _ _ _ _ _) as [[[]|e] s2]; reflexivity.
Qed.

(** X12: a batch whose [ids] and [texts] agree in length but whose non-empty
    [embeddings] has another length fails after the resolve without any
    [add]: the state is the one the resolve left. *)
Theorem create_embeddings_batch_embeddings_mismatch (batch : @EmbeddingBatchItem float Any)
    name w c w1 es :
  get_collection name None w = (Return c, w1) →
  length (batch_ids batch) = length (batch_texts batch) →
  batch_embeddings batch = Some es →
  es ≠ [] →
  length es ≠ length (batch_ids batch) →
  (create_embeddings_batch batch name w).2 = w1 ∧
  ∃ e, (create_embeddings_batch batch name w).1 = Raise e.
Proof.
  intros Hget Hlen Hes Hne Hmis.
  unfold create_embeddings_batch, try_except, mbind, M_bind, bind, internal_error, raise.
  rewrite Hget; simpl.
  rewrite bool_decide_eq_false_2 by (intros ?; contradiction). simpl.
  rewrite Hes. destruct es as [|x v]; [contradiction|]. simpl.
  rewrite bool_decide_eq_true_2 by done. simpl. eauto.
Qed.


(** X14: a batch with [ids] and [texts] of one length, no vectors, and
    [metadatas] missing or empty goes to the store in one [add] call that
    carries all ids and texts and one empty mapping per id; on its return
    the message reports the number of ids. *)
Theorem create_embeddings_batch_default_metadatas (batch : @EmbeddingBatchItem float Any)
    name w c w1 :
  get_collection name None w = (Return c, w1) →
  length (batch_ids batch) = length (batch_texts batch) →
  truthy_list (batch_metadatas batch) = false →
  truthy_list (batch_embeddings batch) = false →
  create_embeddings_batch batch name w =
  match collection_add c (batch_ids batch) None (batch_texts batch)
          (replicate (length (batch_ids batch)) ∅) (chroma_client w1) with
  | (Return _, s2) =>
      (Return {| status := "success";
                 message := "已批量添加" +:+ pretty (length (batch_ids batch))
                            +:+ "个向量到" +:+ name |},
       after_call w1 s2
         (Add c (batch_ids batch) None (batch_texts batch)
            (replicate (length (batch_ids batch)) ∅)) true)
  | (Raise e, s2) =>
      (Raise (HTTPException 500 (str e)),
       after_call w1 s2
         (Add c (batch_ids batch) None (batch_texts batch)
            (replicate (length (batch_ids batch)) ∅)) false)
  end.
Proof.
  intros Hget Hlen Hmeta Hemb.
  unfold create_embeddings_batch, try_except, mbind, M_bind, bind, internal_error, raise,
    invoke, metadatas_or_empty.
  rewrite Hget; simpl.
  rewrite bool_decide_eq_false_2 by (intros ?; contradiction). simpl.
  destruct (batch_metadatas batch) as [[|m ms]|]; try discriminate;
    destruct (batch_embeddings batch) as [[|x v]|]; try discriminate; simpl;
    destruct (collection_add _ _ _ _ _ _) as [[[]|e] s2]; reflexivity.
Qed.

(** X15: a delete request whose [ids] is missing or empty and whose [where]
    is missing or empty fails after the resolve without any [delete] call:
    nothing is deleted without a selection. *)
Theorem delete_embeddings_without_selection (delete_item : @DeleteItem Any) name w c w1 :
  get_collection name None w = (Return c, w1) →
  truthy_list (delete_ids delete_item) = false →
  truthy_dict (delete_where delete_item) = false →
  (delete_embeddings delete_item name w).2 = w1 ∧
  ∃ e, (delete_embeddings delete_item name w).1 = Raise e.
Proof.
  intros Hget Hids Hwhere.
  unfold delete_embeddings, try_except, mbind, M_bind, bind, internal_error, raise.
  rewrite Hget; simpl.
  destruct (delete_ids delete_item) as [[|i ids]|]; try discriminate;
    rewrite Hwhere; simpl; eauto.
Qed.

(** *** The loop over the store's answer *)

(** The loop returns when every turn returns, and raises what the first
    failing turn raises. *)
Lemma for_append_outcome {A : Type} (body : nat → result A) (range : list nat)
    (acc : list A) :
  match for_append body range acc with
  | Return l => ∃ items, l = acc ++ items ∧
                         Forall2 (fun i x => body i = Return x) range items
  | Raise e => ∃ i, i ∈ range ∧ body i = Raise e
  end.
Proof.
  revert acc. induction range as [|i range IH]; intros acc; simpl.
  { exists []. rewrite app_nil_r. split; [reflexivity|constructor]. }
  destruct (body i) as [x|e] eqn:Hi.
  - specialize (IH (acc ++ [x])).
    destruct (for_append body range (acc ++ [x])) as [l|e].
    + destruct IH as (items & -> & Hitems). exists (x :: items).
      rewrite <- app_assoc. split; [reflexivity|]. by constructor.
    + destruct IH as (j & Hj & Hbody). exists j. split; [by right|done].
  - exists i. split; [left|done].
Qed.

Lemma column_outcome {A : Type} (field : option (list (list A))) (i : nat) :
  match column field i with
  | Return _ => ∀ row, first_row field = Some row → i < length row
  | Raise e => e = IndexError
  end.
Proof.
  rewrite column_first_row. destruct (first_row field) as [row|]; [|done].
  destruct (row !! i) as [x|] eqn:Hx; [|done].
  intros ? [= <-]. by apply lookup_lt_Some in Hx.
Qed.

Lemma column_covered {A : Type} (field : option (list (list A))) ids0 i :
  covers field ids0 → i < length ids0 → ∃ entry, column field i = Return entry.
Proof.
  unfold covers. intros Hcov Hi. rewrite column_first_row.
  destruct (first_row field) as [row|]; [|eauto].
  destruct (lookup_lt_is_Some_2 row i) as [x ->]; [lia|eauto].
Qed.

(** One turn of the loop: it returns an item with the [i]-th id exactly when
    every field that is there has an entry at [i]; it raises nothing but
    [IndexError]. *)
Lemma process_item_outcome (results : @QueryResult float Any) ids0 i :
  match process_item results ids0 i with
  | Return item =>
      ids0 !! i = Some (result_id item) ∧
      (∀ row, first_row (res_documents results) = Some row → i < length row) ∧
      (∀ row, first_row (res_metadatas results) = Some row → i < length row) ∧
      (∀ row, first_row (res_distances results) = Some row → i < length row)
  | Raise e => e = IndexError
  end.
Proof.
  unfold process_item, index.
  destruct (ids0 !! i) as [id_|] eqn:Hid; [|done].
  pose proof (column_outcome (res_documents results) i) as Hdoc.
  destruct (column (res_documents results) i) as [text|e]; [|done].
  pose proof (column_outcome (res_metadatas results) i) as Hmeta.
  destruct (column (res_metadatas results) i) as [metadata|e]; [|done].
  pose proof (column_outcome (res_distances results) i) as Hdist.
  destruct (column (res_distances results) i) as [distance|e]; [|done].
  simpl. auto.
Qed.

Lemma process_item_covered (results : @QueryResult float Any) ids0 i :
  covers (res_documents results) ids0 →
  covers (res_metadatas results) ids0 →
  covers (res_distances results) ids0 →
  i < length ids0 →
  ∃ item, process_item results ids0 i = Return item.
Proof.
  intros Hdoc Hmeta Hdist Hi. unfold process_item, index.
  destruct (lookup_lt_is_Some_2 ids0 i Hi) as [id_ ->].
  destruct (column_covered _ _ _ Hdoc Hi) as [text ->].
  destruct (column_covered _ _ _ Hmeta Hi) as [metadata ->].
  destruct (column_covered _ _ _ Hdist Hi) as [distance ->].
  eauto.
Qed.

(** A field indexed at every position of the ids covers them. *)
Lemma covers_from_turns {A : Type} (field : option (list (list A))) ids0 :
  (∀ i, i < length ids0 → ∀ row, first_row field = Some row → i < length row) →
  covers field ids0.
Proof.
  intros Hturns. unfold covers.
  destruct (first_row field) as [row|] eqn:Hrow; [|done].
  destruct (decide (length ids0 = 0)) as [->|Hne]; [lia|].
  specialize (Hturns (length ids0 - 1) ltac:(lia) row eq_refl). lia.
Qed.

Lemma process_results_outcome (results : @QueryResult float Any) :
  match process_results results with
  | Return items =>
      answer_covered results ∧ result_id <$> items = returned_ids results
  | Raise e => ¬ answer_covered results ∧ e = IndexError
  end.
Proof.
  unfold process_results, index, answer_covered, returned_ids.
  destruct (res_ids results) as [|ids0 rest]; simpl; [auto|].
  pose proof (for_append_outcome (process_item results ids0) (seq 0 (length ids0)) [])
    as Hloop.
  destruct (for_append _ _ _) as [items|e].
  - destruct Hloop as (items' & -> & Hall). simpl.
    assert (Hturn : ∀ i, i < length ids0 → ∃ item,
              items' !! i = Some item ∧ process_item results ids0 i = Return item).
    { intros i Hi.
      destruct (Forall2_lookup_l _ _ _ i i Hall) as (item & Hitem & Hbody).
      { apply lookup_seq. lia. }
      eauto. }
    split.
    + repeat split; apply covers_from_turns; intros i Hi row Hrow;
        destruct (Hturn i Hi) as (item & _ & Hbody);
        pose proof (process_item_outcome results ids0 i) as Hout;
        rewrite Hbody in Hout; destruct Hout as (_ & Hdoc & Hmeta & Hdist); eauto.
    + apply Forall2_length in Hall as Hlen. rewrite length_seq in Hlen.
      apply list_eq. intros i. rewrite list_lookup_fmap.
      destruct (decide (i < length ids0)) as [Hi|Hi].
      * destruct (Hturn i Hi) as (item & -> & Hbody). simpl.
        pose proof (process_item_outcome results ids0 i) as Hout.
        rewrite Hbody in Hout. by destruct Hout as [-> _].
      * rewrite !lookup_ge_None_2 by lia. reflexivity.
  - destruct Hloop as (i & Hi & Hbody). apply elem_of_seq in Hi.
    pose proof (process_item_outcome results ids0 i) as Hout.
    rewrite Hbody in Hout. split; [|exact Hout].
    intros (Hdoc & Hmeta & Hdist).
    destruct (process_item_covered results ids0 i Hdoc Hmeta Hdist) as [item Hitem];
      [lia|congruence].
Qed.

(** X16: the reshaping of a store answer returns exactly when the answer has
    a row of ids and every field that is there (documents, metadatas,
    distances) has an entry for each id; it then gives one item per id, in
    the order of the ids, never a shorter list.  On any other answer it
    raises [IndexError] and nothing else.  A field with more entries than
    ids is accepted, the surplus unread. *)
Theorem process_results_returns_iff (results : @QueryResult float Any) :
  (answer_covered results ↔ ∃ items, process_results results = Return items) ∧
  (∀ items, process_results results = Return items →
            result_id <$> items = returned_ids results) ∧
  (∀ e, process_results results = Raise e → e = IndexError).
Proof.
  pose proof (process_results_outcome results) as Hout.
  destruct (process_results results) as [items|e].
  - destruct Hout as [Hcov Hids]. split; [|split].
    + split; eauto.
    + by intros ? [= <-].
    + discriminate.
  - destruct Hout as [Hcov ->]. split; [|split].
    + split; [contradiction|]. by intros [? ?].
    + discriminate.
    + by intros ? [= <-].
Qed.

(** X17: when the collection is resolved and the store has answered the
    query, [query_similar] either returns with status "success", the ids
    of the answer in order and [count] equal to the number of results, or,
    on an answer the loop cannot index, fails with status 500 and detail
    "list index out of range"; it never returns part of the matches. *)
Theorem query_similar_answer (query : @QueryItem float Any) name w c w1 results s2 :
  get_collection name None w = (Return c, w1) →
  store_query query c (chroma_client w1) = (Return results, s2) →
  match (query_similar query name w).1 with
  | Return response =>
      answer_covered results ∧
      response_status response = "success" ∧
      response_count response = length (response_results response) ∧
      result_id <$> response_results response = returned_ids results
  | Raise e =>
      ¬ answer_covered results ∧ e = HTTPException 500 "list index out of range"
  end.
Proof.
  intros Hget Hquery.
  pose proof (process_results_outcome results) as Hout.
  assert (Hrun : (query_similar query name w).1 =
                 match process_results results with
                 | Return items =>
                     Return {| response_status := "success";
                               response_results := items;
                               response_count := length items |}
                 | Raise e => Raise (HTTPException 500 (str e))
                 end).
  { unfold query_similar, try_except, mbind, M_bind, bind, internal_error, raise,
      invoke, lift.
    rewrite Hget; simpl. unfold store_query in Hquery.
    destruct (query_embedding query) as [[|x v]|]; simpl; rewrite Hquery; simpl;
      by destruct (process_results results). }
  rewrite Hrun. destruct (process_results results) as [items|e]; simpl.
  - destruct Hout as [Hcov Hids]. auto.
  - destruct Hout as [Hcov ->]. auto.
Qed.

End Records.

(** ** Further runs on the in-memory client *)

Section MoreRuns.

#[local] Existing Instance Examples.memory.

Local Open Scope list_scope.

(** A query for "default" leaves the entry of "notes" alone. *)
Lemma serve_cache_frame_witness :
  target Requests.hello_request ≠ Some "notes" ∧
  collections (serve Requests.hello_request Examples.warm).2
    !! "notes" = collections Examples.warm !! "notes".
Proof.
  assert (H : target Requests.hello_request ≠ Some "notes").
  { simpl. discriminate. }
  split; [exact H|].
  exact (serve_cache_frame Requests.hello_request
           Examples.warm "notes" H).
Defined.

(** The session keeps the cached "default". *)
Lemma serve_all_keeps_cached_witness :
  Forall (fun r => ¬ drops "default" r) Requests.session ∧
  collections Examples.warm !! "default" = Some Examples.default_handle ∧
  collections (serve_all Requests.session Examples.warm) !! "default" =
  Some Examples.default_handle.
Proof.
  assert (H : Forall (fun r => ¬ drops "default" r) Requests.session).
  { repeat constructor; simpl; try tauto; discriminate. }
  assert (Hc : collections Examples.warm !! "default" = Some Examples.default_handle).
  { vm_compute. reflexivity. }
  split; [exact H|]. split; [exact Hc|].
  exact (serve_all_keeps_cached "default" Examples.default_handle Requests.session
           Examples.warm H Hc).
Defined.


(** Dropping the cached "default" and resolving it again. *)
Lemma drop_then_resolve_witness :
  delete_collection "default" Examples.warm =
    (Return {| status := "success"; message := "已删除collection: default" |},
     (delete_collection "default" Examples.warm).2) ∧
  collections (delete_collection "default" Examples.warm).2 !! "default" = None.
Proof.
  assert (H : delete_collection "default" Examples.warm =
    (Return {| status := "success"; message := "已删除collection: default" |},
     (delete_collection "default" Examples.warm).2)).
  { vm_compute. reflexivity. }
  split; [exact H|].
  exact (proj1 (drop_then_resolve "default" None Examples.warm _ _ H)).
Defined.

(** Adding a record with an explicit vector to the cached "default". *)
Lemma create_embedding_outcome_witness :
  get_collection "default" None Examples.warm =
    (Return Examples.default_handle, Examples.warm) ∧
  (create_embedding Requests.embedded_item "default" Examples.warm).1 =
    Return {| status := "success"; message := "已将文本向量化并添加到default" |}.
Proof.
  assert (H : get_collection "default" None Examples.warm =
              (Return Examples.default_handle, Examples.warm)).
  { vm_compute. reflexivity. }
  split; [exact H|].
  rewrite (create_embedding_outcome Requests.embedded_item "default" Examples.warm
             Examples.default_handle Examples.warm H).
  vm_compute. reflexivity.
Defined.

(** Two ids, one vector. *)
Lemma create_embeddings_batch_embeddings_mismatch_witness :
  get_collection "default" None Examples.warm =
    (Return Examples.default_handle, Examples.warm) ∧
  length (batch_ids Examples.short_embeddings)
    = length (batch_texts Examples.short_embeddings) ∧
  batch_embeddings Examples.short_embeddings = Some [[1%Z]] ∧
  [[1%Z]] ≠ [] ∧
  length [[1%Z]] ≠ length (batch_ids Examples.short_embeddings) ∧
  (create_embeddings_batch Examples.short_embeddings "default" Examples.warm).2 =
  Examples.warm.
Proof.
  assert (H : get_collection "default" None Examples.warm =
              (Return Examples.default_handle, Examples.warm)).
  { vm_compute. reflexivity. }
  assert (Hlen : length (batch_ids Examples.short_embeddings)
                 = length (batch_texts Examples.short_embeddings)).
  { reflexivity. }
  assert (Hes : batch_embeddings Examples.short_embeddings = Some [[1%Z]]).
  { reflexivity. }
  assert (Hne : [[1%Z]] ≠ ([] : list (list InMemory.number))).
  { discriminate. }
  assert (Hmis : length [[1%Z]] ≠ length (batch_ids Examples.short_embeddings)).
  { simpl. discriminate. }
  repeat (split; [assumption|]).
  exact (proj1 (create_embeddings_batch_embeddings_mismatch Examples.short_embeddings
                  "default" Examples.warm Examples.default_handle Examples.warm
                  [[1%Z]] H Hlen Hes Hne Hmis)).
Defined.

(** A batch of two records without metadatas. *)
Lemma create_embeddings_batch_default_metadatas_witness :
  get_collection "default" None Examples.warm =
    (Return Examples.default_handle, Examples.warm) ∧
  length (batch_ids Requests.plain_batch) = length (batch_texts Requests.plain_batch) ∧
  truthy_list (batch_metadatas Requests.plain_batch) = false ∧
  truthy_list (batch_embeddings Requests.plain_batch) = false ∧
  (create_embeddings_batch Requests.plain_batch "default" Examples.warm).1 =
    Return {| status := "success"; message := "已批量添加2个向量到default" |}.
Proof.
  assert (H : get_collection "default" None Examples.warm =
              (Return Examples.default_handle, Examples.warm)).
  { vm_compute. reflexivity. }
  assert (Hlen : length (batch_ids Requests.plain_batch)
                 = length (batch_texts Requests.plain_batch)).
  { reflexivity. }
  assert (Hmeta : truthy_list (batch_metadatas Requests.plain_batch) = false).
  { reflexivity. }
  assert (Hemb : truthy_list (batch_embeddings Requests.plain_batch) = false).
  { reflexivity. }
  repeat (split; [assumption|]).
  rewrite (create_embeddings_batch_default_metadatas Requests.plain_batch "default"
             Examples.warm Examples.default_handle Examples.warm H Hlen Hmeta Hemb).
  vm_compute. reflexivity.
Defined.

(** A delete request with neither [ids] nor [where]. *)
Lemma delete_embeddings_without_selection_witness :
  get_collection "default" None Examples.warm =
    (Return Examples.default_handle, Examples.warm) ∧
  truthy_list (delete_ids Examples.no_selection) = false ∧
  truthy_dict (delete_where Examples.no_selection) = false ∧
  (delete_embeddings Examples.no_selection "default" Examples.warm).2 = Examples.warm.
Proof.
  assert (H : get_collection "default" None Examples.warm =
              (Return Examples.default_handle, Examples.warm)).
  { vm_compute. reflexivity. }
  assert (Hids : truthy_list (delete_ids Examples.no_selection) = false).
  { reflexivity. }
  assert (Hwhere : truthy_dict (delete_where Examples.no_selection) = false).
  { reflexivity. }
  repeat (split; [assumption|]).
  exact (proj1 (delete_embeddings_without_selection Examples.no_selection "default"
                  Examples.warm Examples.default_handle Examples.warm H Hids Hwhere)).
Defined.

(** The answer of the examples can be indexed, so its reshaping returns. *)
Lemma process_results_returns_iff_witness :
  answer_covered Examples.answer ∧
  ∃ items, process_results Examples.answer = Return items.
Proof.
  assert (H : answer_covered Examples.answer).
  { vm_compute. auto. }
  split; [exact H|].
  exact (proj1 (proj1 (process_results_returns_iff Examples.answer)) H).
Defined.

(** A text query on the cached "default". *)
Lemma query_similar_answer_witness :
  get_collection "default" None Examples.warm =
    (Return Examples.default_handle, Examples.warm) ∧
  store_query Requests.hello_query Examples.default_handle
    (chroma_client Examples.warm) = (Return Examples.answer, chroma_client Examples.warm) ∧
  match (query_similar Requests.hello_query "default" Examples.warm).1 with
  | Return response => response_count response = length (response_results response)
  | Raise e => e = HTTPException 500 "list index out of range"
  end.
Proof.
  assert (H : get_collection "default" None Examples.warm =
              (Return Examples.default_handle, Examples.warm)).
  { vm_compute. reflexivity. }
  assert (Hq : store_query Requests.hello_query Examples.default_handle
                 (chroma_client Examples.warm) =
               (Return Examples.answer, chroma_client Examples.warm)).
  { vm_compute. reflexivity. }
  split; [exact H|]. split; [exact Hq|].
  pose proof (query_similar_answer Requests.hello_query "default" Examples.warm
                Examples.default_handle Examples.warm Examples.answer
                (chroma_client Examples.warm) H Hq) as Hout.
  destruct ((query_similar Requests.hello_query "default" Examples.warm).1)
    as [response|e].
  - exact (proj1 (proj2 (proj2 Hout))).
  - exact (proj2 Hout).
Defined.

End MoreRuns.

(** ** Runs on the unreachable store *)

Section OfflineRuns.

#[local] Existing Instance Offline.client.

Local Open Scope list_scope.

(** With the store down, a resolve raises what the create raised. *)
Lemma get_collection_raises_witness :
  get_collection "default" None Offline.fresh =
    (Raise Offline.unreachable, (get_collection "default" None Offline.fresh).2) ∧
  collections (get_collection "default" None Offline.fresh).2 =
  collections Offline.fresh.
Proof.
  assert (H : get_collection "default" None Offline.fresh =
    (Raise Offline.unreachable, (get_collection "default" None Offline.fresh).2)).
  { vm_compute. reflexivity. }
  split; [exact H|].
  exact (proj1 (proj2 (get_collection_raises "default" None Offline.fresh _ _ H))).
Defined.

(** With the store down, a query fails with status 500. *)
Lemma serve_failure_is_500_witness :
  (serve Requests.hello_request Offline.fresh).1 =
    Raise (HTTPException 500 "Could not connect to the database") ∧
  Requests.hello_request ≠ GET_collections ∧
  ∃ detail, HTTPException 500 "Could not connect to the database" =
            HTTPException 500 detail.
Proof.
  assert (H : (serve Requests.hello_request Offline.fresh).1 =
              Raise (HTTPException 500 "Could not connect to the database")).
  { vm_compute. reflexivity. }
  assert (Hr : Requests.hello_request ≠ GET_collections).
  { discriminate. }
  split; [exact H|]. split; [exact Hr|].
  exact (proj2 (proj2 (serve_failure_is_500 Requests.hello_request Offline.fresh)) _ H Hr).
Defined.

(** With the store down, adding a record reports the store's message. *)
Lemma resolve_failure_surfaces_witness :
  (get_collection "default" None Offline.fresh).1 = Raise Offline.unreachable ∧
  (create_embedding Requests.embedded_item "default" Offline.fresh).1 =
    Raise (HTTPException 500 "Could not connect to the database").
Proof.
  assert (H : get_collection "default" None Offline.fresh =
              (Raise Offline.unreachable, (get_collection "default" None Offline.fresh).2)).
  { vm_compute. reflexivity. }
  split; [vm_compute; reflexivity|].
  rewrite (proj1 (resolve_failure_surfaces Requests.embedded_item Requests.plain_batch
                    Requests.hello_query Examples.no_selection "default"
                    Offline.fresh _ _ H)).
  reflexivity.
Defined.

End OfflineRuns.

(** ** Properties of the dependency installer *)

Section Installer.

Import InstallDeps.

Local Open Scope list_scope.

Implicit Types (m : machine) (log : list event).

Lemma commands_printed log line : commands (log ++ [Printed line]) = commands log.
Proof. unfold commands. rewrite omap_app. simpl. apply app_nil_r. Qed.

Lemma commands_ran log cmd : commands (log ++ [Ran cmd]) = commands log ++ [cmd].
Proof. unfold commands. rewrite omap_app. reflexivity. Qed.

Lemma unsupported_test m :
  (version_major m <? required_major)%Z
  || ((version_major m =? required_major)%Z && (version_minor m <? required_minor)%Z)
  = negb (bool_decide (supported (version_major m) (version_minor m))).
Proof.
  unfold supported, required_major, required_minor.
  case_bool_decide as H; simpl.
  - apply orb_false_iff. split; [apply Z.ltb_ge; lia|].
    apply andb_false_iff.
    destruct (Z.eqb_spec (version_major m) 3); [right; apply Z.ltb_ge; lia|by left].
  - apply orb_true_iff.
    destruct (Z.ltb_spec (version_major m) 3); [by left|right].
    apply andb_true_iff. split; [apply Z.eqb_eq; lia|apply Z.ltb_lt; lia].
Qed.

Lemma check_python_version_unfold m log :
  ∃ lines,
    check_python_version m log =
    (Returns (bool_decide (supported (version_major m) (version_minor m))), lines) ∧
    commands lines = commands log.
Proof.
  unfold check_python_version. rewrite unsupported_test.
  case_bool_decide; simpl; unfold then_, print, pure; simpl;
    (eexists; split; [reflexivity|]); by rewrite !commands_printed.
Qed.

(** X18: [check_python_version] returns [True] exactly for the versions
    from 3.8 on, compared major first (3.7 fails, 3.8 and 4.0 pass); it
    never raises and runs no command. *)
Theorem check_python_version_supported m log :
  ∃ b, (check_python_version m log).1 = Returns b ∧
       (b = true ↔ supported (version_major m) (version_minor m)) ∧
       commands (check_python_version m log).2 = commands log.
Proof.
  destruct (check_python_version_unfold m log) as (lines & -> & Hcmd). simpl.
  eexists; split; [reflexivity|]. split; [|exact Hcmd].
  apply bool_decide_eq_true.
Qed.

Lemma install_dependencies_unfold m log :
  let path := path_join m (script_dir m) "requirements.txt" in
  let cmd := [get_pip_cmd m; "install"; "-r"; path] in
  ∃ lines,
    (install_dependencies m log).2 = lines ∧
    commands lines = commands log ++ (if path_exists m path then [cmd] else []) ∧
    (install_dependencies m log).1 =
    if path_exists m path then
      match subprocess_run m cmd with
      | Completed _ => Returns true
      | CalledProcessError _ _ => Returns false
      | OtherError str_e => Raises (Other_exn str_e)
      end
    else Returns false.
Proof.
  intros path cmd. unfold install_dependencies.
  fold path. fold cmd.
  destruct (path_exists m path); simpl;
    unfold try_except_CalledProcessError, then_, print, pure, run; simpl.
  - destruct (subprocess_run m cmd) as [out|str_e err|str_e]; simpl;
      (eexists; split; [reflexivity|]);
      rewrite ?commands_printed, commands_ran, ?commands_printed; auto.
  - eexists; split; [reflexivity|].
    rewrite !commands_printed, app_nil_r. auto.
Qed.

(** X19: [install_dependencies] runs at most one command, and only when
    [requirements.txt] exists next to the script: [pip] on Windows
    ([os.name == 'nt']) and [pip3] elsewhere, with the arguments
    [install -r <that file>].  It returns [True] exactly when the file
    exists and the command completes; a [CalledProcessError] gives [False];
    any other exception from starting the command is not caught. *)
Theorem install_dependencies_runs_pip m log :
  let path := path_join m (script_dir m) "requirements.txt" in
  let cmd := [if String.eqb (os_name m) "nt" then "pip" else "pip3";
              "install"; "-r"; path] in
  commands (install_dependencies m log).2 =
    commands log ++ (if path_exists m path then [cmd] else []) ∧
  match (install_dependencies m log).1 with
  | Returns b =>
      (b = true ↔ path_exists m path = true ∧ ∃ out, subprocess_run m cmd = Completed out) ∧
      (b = false → path_exists m path = false ∨
                   ∃ str_e err, subprocess_run m cmd = CalledProcessError str_e err)
  | Raises e =>
      path_exists m path = true ∧
      ∃ str_e, subprocess_run m cmd = OtherError str_e ∧ e = Other_exn str_e
  end.
Proof.
  intros path cmd.
  destruct (install_dependencies_unfold m log) as (lines & Hlines & Hcmd & Hres).
  fold path in Hres, Hcmd. unfold get_pip_cmd in Hres, Hcmd. fold cmd in Hres, Hcmd.
  rewrite Hlines, Hres. split; [exact Hcmd|].
  destruct (path_exists m path).
  - destruct (subprocess_run m cmd) as [out|str_e err|str_e].
    + split; [|discriminate]. split; eauto.
    + split; [|eauto]. split; [discriminate|]. intros (_ & out & ?). discriminate.
    + eauto.
  - split; [|auto]. split; [discriminate|]. intros [? _]. discriminate.
Qed.

(** X20: [main] returns normally exactly when the version is supported, the
    requirements file exists and [pip] completes.  On an unsupported
    version it exits with status 1 without looking for the file or running
    any command; when the file is missing or [pip] ends with
    [CalledProcessError] it exits with status 1; an exception other than
    [CalledProcessError] from running [pip] leaves [main] as it is. *)
Theorem main_exit_status m log :
  let path := path_join m (script_dir m) "requirements.txt" in
  let cmd := [get_pip_cmd m; "install"; "-r"; path] in
  let ok := supported (version_major m) (version_minor m) in
  match (main m log).1 with
  | Returns _ =>
      ok ∧ path_exists m path = true ∧ ∃ out, subprocess_run m cmd = Completed out
  | Raises (SystemExit code) =>
      code = 1%Z ∧
      (¬ ok ∨ (ok ∧ (path_exists m path = false ∨
                     ∃ str_e err, subprocess_run m cmd = CalledProcessError str_e err)))
  | Raises e =>
      ok ∧ path_exists m path = true ∧
      ∃ str_e, subprocess_run m cmd = OtherError str_e ∧ e = Other_exn str_e
  end ∧
  (¬ ok → commands (main m log).2 = commands log).
Proof.
  intros path cmd ok.
  destruct (main m log) as [o final] eqn:Hmain. simpl. revert Hmain.
  unfold main, then_, print, sys_exit, pure. simpl.
  set (log4 := (((log ++ _) ++ _) ++ _) ++ _).
  assert (Hlog4 : commands log4 = commands log).
  { unfold log4. by rewrite !commands_printed. }
  destruct (check_python_version_unfold m log4) as (lines & -> & Hcmd1).
  fold ok. case_bool_decide as Hok; simpl.
  2: { intros [= <- <-]. split; [auto|]. intros _. congruence. }
  destruct (install_dependencies_unfold m lines) as (lines2 & Hlines2 & _ & Hres).
  fold path in Hres. fold cmd in Hres.
  destruct (install_dependencies m lines) as [[b|e] lines2'] eqn:Hinst;
    simpl in Hres, Hlines2; subst lines2'.
  - destruct b; simpl; intros [= <- <-].
    + split; [|done].
      destruct (path_exists m path); [|discriminate].
      destruct (subprocess_run m cmd) as [out|str_e err|str_e]; try discriminate. eauto.
    + split; [|done]. split; [done|]. right. split; [done|].
      destruct (path_exists m path); [|auto].
      destruct (subprocess_run m cmd) as [out|str_e err|str_e]; try discriminate. eauto.
  - intros [= <- <-]. split; [|done].
    destruct (path_exists m path); [|discriminate].
    destruct (subprocess_run m cmd) as [out|str_e err|str_e]; try discriminate.
    injection Hres as ->. eauto.
Qed.

(** On the Linux machine the requirements file exists and [pip3] completes:
    one command is run. *)
Lemma install_dependencies_runs_pip_witness :
  path_exists linux (path_join linux (script_dir linux) "requirements.txt") = true ∧
  commands (install_dependencies linux []).2 =
    [["pip3"; "install"; "-r"; "/srv/app/python/requirements.txt"]].
Proof.
  split; [vm_compute; reflexivity|].
  rewrite (proj1 (install_dependencies_runs_pip linux [])).
  vm_compute. reflexivity.
Defined.

(** On Python 3.7 nothing is run. *)
Lemma main_exit_status_witness :
  ¬ supported (version_major old_python) (version_minor old_python) ∧
  commands (main old_python []).2 = commands [].
Proof.
  assert (H : ¬ supported (version_major old_python) (version_minor old_python)).
  { unfold supported. simpl. lia. }
  split; [exact H|].
  exact (proj2 (main_exit_status old_python []) H).
Defined.

End Installer.

(** ** Properties of start-up *)

Section StartupProperties.

Import Startup.

Context {Sys Store : Type} {platform : @Platform Sys Store}.

Local Open Scope list_scope.

Implicit Types (p : @process Sys Store) (a : args).

Lemma truthy_str_ne s : truthy_str s = true → s ≠ "".
Proof.
  unfold truthy_str. intros H ->. discriminate.
Qed.

Lemma environ_key_set p k :
  truthy_str (default "" (environ p !! k)) = true →
  environ p !! k = Some (default "" (environ p !! k)).
Proof.
  destruct (environ p !! k) as [v|]; simpl; [done|discriminate].
Qed.

(** [startup_db_client], call by call. *)
Lemma startup_db_client_unfold p :
  let path := resolved_path (environ p) in
  let key := default "" (environ p !! "OPENAI_API_KEY") in
  let model := "text-embedding-ada-002" in
  startup_db_client p =
  match makedirs path (sys p) with
  | (Raise e, s1) =>
      (Raise e,
       assigned p (Some path) (chroma_client p) (openai_ef p) (default_ef p) s1
         [Makedirs path])
  | (Return _, s1) =>
      match persistent_client path s1 with
      | (Raise e, s2) =>
          (Raise e,
           assigned p (Some path) (chroma_client p) (openai_ef p) (default_ef p) s2
             [Makedirs path; PersistentClient path])
      | (Return client, s2) =>
          let openai :=
            if truthy_str key then
              match openai_embedding_function key model s2 with
              | (Return _, s3) => (Some OpenAIEmbeddingFunction, s3)
              | (Raise _, s3) => (None, s3)
              end
            else (openai_ef p, s2) in
          let called :=
            [Makedirs path; PersistentClient path]
            ++ (if truthy_str key then [NewOpenAIEmbeddingFunction key model] else [])
            ++ [NewDefaultEmbeddingFunction] in
          match default_embedding_function openai.2 with
          | (Return _, s4) =>
              (Return tt,
               assigned p (Some path) (Some client) openai.1
                 (Some DefaultEmbeddingFunction) s4 called)
          | (Raise e, s4) =>
              (Raise e,
               assigned p (Some path) (Some client) openai.1 (default_ef p) s4 called)
          end
      end
  end.
Proof.
  intros path key model.
  unfold startup_db_client, and_then, try_, environ_get, set_VECTOR_DB_PATH,
    set_chroma_client, set_openai_ef, set_default_ef, unit_, call, assigned; simpl.
  change (default (abspath "../resources/vector_db") (environ p !! "VECTOR_DB_PATH"))
    with path.
  change (default "" (environ p !! "OPENAI_API_KEY")) with key.
  destruct (makedirs path (sys p)) as [[[]|e] s1]; simpl; [|reflexivity].
  destruct (persistent_client path s1) as [[client|e] s2]; simpl;
    [|by rewrite <- app_assoc].
  change (default "" (environ p !! "OPENAI_API_KEY")) with key.
  destruct (truthy_str key); simpl.
  - change (default "" (environ p !! "OPENAI_API_KEY")) with key. subst model.
    destruct (openai_embedding_function key _ s2) as [[[]|e] s3]; simpl;
      destruct (default_embedding_function s3) as [[[]|e'] s4]; simpl;
      rewrite <- ?app_assoc; reflexivity.
  - destruct (default_embedding_function s2) as [[[]|e'] s4]; simpl;
      rewrite <- !app_assoc; reflexivity.
Qed.


Lemma set_db_path_effect a p :
  (set_db_path a p).1 = Return tt ∧
  log (set_db_path a p).2 = log p ∧
  resolved_path (environ (set_db_path a p).2) =
    match db_path a with
    | Some path => if truthy_str path then path else resolved_path (environ p)
    | None => resolved_path (environ p)
    end.
Proof.
  unfold set_db_path, environ_set, unit_, resolved_path.
  destruct (db_path a) as [path|]; [|done].
  destruct (truthy_str path); [|done]. simpl.
  by rewrite lookup_insert_eq.
Qed.

Lemma startup_db_client_paths p :
  ∃ new,
    log (startup_db_client p).2 = log p ++ new ∧
    Forall (on_path (resolved_path (environ p))) new ∧
    ((startup_db_client p).1 = Return tt →
     VECTOR_DB_PATH (startup_db_client p).2 = Some (resolved_path (environ p)) ∧
     ∃ s client,
       (persistent_client (resolved_path (environ p)) s).1 = Return client ∧
       chroma_client (startup_db_client p).2 = Some client).
Proof.
  rewrite startup_db_client_unfold.
  set (path := resolved_path (environ p)).
  set (key := default "" (environ p !! "OPENAI_API_KEY")).
  destruct (makedirs path (sys p)) as [[[]|e] s1]; simpl.
  2: { eexists; split; [reflexivity|]. split; [by repeat constructor|discriminate]. }
  destruct (persistent_client path s1) as [[client|e] s2] eqn:Hpc; simpl.
  2: { eexists; split; [reflexivity|]. split; [by repeat constructor|discriminate]. }
  match goal with
  | |- context [default_embedding_function ?s] =>
      destruct (default_embedding_function s) as [[[]|e] s4]; simpl
  end; (eexists; split; [reflexivity|]); split;
    try (destruct (truthy_str key); by repeat constructor); try discriminate.
  intros _. split; [reflexivity|]. exists s1, client. by rewrite Hpc.
Qed.


End StartupProperties.
